(** * fix_config.py: disabling the problematic columns of a configuration

    A shallow embedding of [fix_config.py] and the properties of its
    read-modify-write cycle.  The script loads a JSON configuration,
    sets ["Enabled"] to false on the columns listed in the module's
    [PROBLEMATIC_COLUMNS] table, writes the document back and returns
    how many columns it disabled. *)

From stdpp Require Import base option list strings gmap fin_maps pretty.
From Stdlib Require Import ZArith Lia.

Local Open Scope Z_scope.
Local Open Scope string_scope.

(** ** Values produced by [json.load]

    [json.load] builds a tree of fresh Python objects: [None], [bool],
    [int], [float], [str], [list] and [dict] with [str] keys.  A [dict]
    keeps its keys in insertion order, so it is an association list; the
    loader never produces the same key twice in one [dict].  A [float] is
    kept as its IEEE-754 bit pattern: the script never computes with it. *)

#[warnings="-register-all"]
Inductive json : Type :=
  | JNull
  | JBool (b : bool)
  | JInt (n : Z)
  | JFloat (bits : Z)
  | JStr (s : string)
  | JArr (items : list json)
  | JObj (fields : list (string * json)).

Abbreviation dict := (list (string * json)).

(** [d.get(k)] at the level of the key/value pairs. *)
Fixpoint dict_get (d : dict) (k : string) : option json :=
  match d with
  | [] => None
  | (k', v) :: d' => if String.eqb k' k then Some v else dict_get d' k
  end.

(** [d[k] = v]: an existing key keeps its place, a new key goes last. *)
Fixpoint dict_set (d : dict) (k : string) (v : json) : dict :=
  match d with
  | [] => [(k, v)]
  | (k', v') :: d' =>
      if String.eqb k' k then (k', v) :: d' else (k', v') :: dict_set d' k v
  end.

(** The keys of a [dict], in order. *)
Definition dict_keys (d : dict) : list string := d.*1.

(** The pairs of a [dict] whose key is not [k], in order. *)
Definition dict_without (k : string) (d : dict) : dict :=
  filter (λ kv, kv.1 ≠ k) d.

(** ** The interpreter state the script can observe *)

Record file := File {
  readable : bool;
  writable : bool;
  content : string
}.

(** The exceptions the script can raise.  [FileNotFoundError] and
    [PermissionError] are subclasses of [OSError], of which [IOError] is
    an alias; [JSONDecodeError] is what [json.load] raises. *)
Inductive exn : Type :=
  | FileNotFoundError
  | PermissionError
  | JSONDecodeError
  | AttributeError
  | TypeError
  | KeyError.

Definition is_IOError (e : exn) : bool :=
  match e with
  | FileNotFoundError | PermissionError => true
  | _ => false
  end.

Definition is_ParseError (e : exn) : bool :=
  match e with
  | JSONDecodeError => true
  | _ => false
  end.

(** The file system, the lines printed so far, and the module global
    [PROBLEMATIC_COLUMNS] (a [dict] from table names to lists of column
    names, which Python would let any code mutate). *)
Record world := World {
  fs : gmap string file;
  stdout : list string;
  globals : gmap string (list string)
}.

(** Computations: they read and change the world, and either raise or
    return. *)
Definition M (A : Type) : Type := world → world * (exn + A).

Definition ret {A} (a : A) : M A := λ w, (w, inr a).

Definition raise {A} (e : exn) : M A := λ w, (w, inl e).

Definition bind {A B} (m : M A) (k : A → M B) : M B :=
  λ w, match m w with
       | (w', inr a) => k a w'
       | (w', inl e) => (w', inl e)
       end.

#[export] Instance M_ret : MRet M := @ret.
#[export] Instance M_bind : MBind M := λ A B k m, bind m k.

(** [print(line)] *)
Definition print (line : string) : M unit :=
  λ w, (World (fs w) (stdout w ++ [line]) (globals w), inr tt).

(** Reading the module global. *)
Definition get_global : M (gmap string (list string)) :=
  λ w, (w, inr (globals w)).

(** The module body's assignment to the global. *)
Definition set_global (d : gmap string (list string)) : M unit :=
  λ w, (World (fs w) (stdout w) d, inr tt).

(** [with open(path, 'r') as f: f.read()] *)
Definition open_read (path : string) : M string :=
  λ w, match fs w !! path with
       | None => (w, inl FileNotFoundError)
       | Some f => if readable f then (w, inr (content f))
                   else (w, inl PermissionError)
       end.

(** [with open(path, 'w') as f: f.write(text)]: the file is created when
    it does not exist, and replaced when it may be written. *)
Definition open_write (path : string) (text : string) : M unit :=
  λ w, match fs w !! path with
       | None =>
           (World (<[path := File true true text]> (fs w)) (stdout w) (globals w),
            inr tt)
       | Some f =>
           if writable f
           then (World (<[path := File (readable f) true text]> (fs w))
                       (stdout w) (globals w), inr tt)
           else (w, inl PermissionError)
       end.

(** ** Python operations on loaded values *)

(** [o.get(k, dflt)]: only a [dict] has the method. *)
Definition py_get (o : json) (k : string) (dflt : json) : M json :=
  match o with
  | JObj d => mret (default dflt (dict_get d k))
  | _ => raise AttributeError
  end.

(** [o[k] = v]: item assignment with a [str] key exists on a [dict] only. *)
Definition py_setitem (o : json) (k : string) (v : json) : M json :=
  match o with
  | JObj d => mret (JObj (dict_set d k v))
  | _ => raise TypeError
  end.

(** The characters of a [str], each one a [str] of length one (a
    character of the [string] stands for a character of the [str]). *)
Fixpoint chars (s : string) : list json :=
  match s with
  | EmptyString => []
  | String a s' => JStr (String a EmptyString) :: chars s'
  end.

(** The elements [for x in o] goes through: the items of a [list], the
    characters of a [str], the keys of a [dict]; nothing else loaded from
    JSON is iterable. *)
Definition elements (o : json) : option (list json) :=
  match o with
  | JArr items => Some items
  | JStr s => Some (chars s)
  | JObj d => Some (JStr <$> dict_keys d)
  | _ => None
  end.

Definition py_iter (o : json) : M (list json) :=
  match elements o with
  | Some items => mret items
  | None => raise TypeError
  end.

(** [key in d] for a [dict] with [str] keys.  The key is hashed first, and
    a [list] or a [dict] is unhashable; a key that is not a [str] equals
    none of the keys.  A successful test yields the key as a [str]. *)
Definition dict_in (d : gmap string (list string)) (key : json)
  : M (option string) :=
  match key with
  | JStr s => mret (if decide (is_Some (d !! s)) then Some s else None)
  | JArr _ | JObj _ => raise TypeError
  | _ => mret None
  end.

(** [d[key]] *)
Definition dict_getitem (d : gmap string (list string)) (key : string)
  : M (list string) :=
  match d !! key with
  | Some v => mret v
  | None => raise KeyError
  end.

(** [x in l] for a [list] of [str]: [x] is compared with each element,
    and only a [str] is equal to a [str].  A successful test yields [x] as
    a [str]. *)
Definition list_in (l : list string) (x : json) : option string :=
  match x with
  | JStr s => if decide (s ∈ l) then Some s else None
  | _ => None
  end.

(** The elements of the [list] stored under [k] were changed in place, and
    are now [items']; a container that is not a [list], or the fresh [[]]
    that [get] returned for a missing key, is not part of [o]. *)
Definition update_elements (o : json) (k : string) (items' : list json) : json :=
  match o with
  | JObj d =>
      match dict_get d k with
      | Some (JArr _) => JObj (dict_set d k (JArr items'))
      | _ => o
      end
  | _ => o
  end.

(** ** The script *)

(** A [dict] display: the pairs are inserted from left to right. *)
Definition dict_display (pairs : list (string * list string))
  : gmap string (list string) :=
  foldl (λ d kv, <[kv.1 := kv.2]> d) ∅ pairs.

Definition PROBLEMATIC_COLUMNS : gmap string (list string) :=
  dict_display [
    ("Production.WorkOrderRouting", ["LocationID"]);
    ("Production.ProductModel", ["CatalogDescription"]);
    ("Purchasing.ProductVendor", ["LastReceiptCost"; "LastReceiptDate"]);
    ("Person.StateProvince", ["StateProvinceID"; "IsOnlyStateProvinceFlag"]);
    ("Sales.SalesOrderDetail", ["SalesOrderDetailID"]);
    ("Production.ProductInventory", ["LocationID"]);
    ("Production.ProductDescription", ["ProductDescriptionID"]);
    ("Production.ProductModelProductDescriptionCulture", ["ProductDescriptionID"]);
    ("Purchasing.PurchaseOrderDetail", ["PurchaseOrderDetailID"]);
    ("Sales.SalesPerson", ["SalesLastYear"]);
    ("Sales.SalesTerritory", ["SalesLastYear"; "CostLastYear"]);
    ("Purchasing.ShipMethod", ["ShipMethodID"; "ShipBase"; "ShipRate"]);
    ("Purchasing.PurchaseOrderHeader", ["ShipMethodID"; "ShipDate"]);
    ("Sales.SalesOrderHeader", ["ShipDate"; "ShipMethodID"])
  ].

(** A [for] loop whose body may change the element it visits (in place,
    so that the container holds the changed element afterwards) and the
    counter [fixed_count].  It returns the elements as the loop left them
    and the counter; an exception raised by the body ends the loop. *)
Fixpoint for_in (body : json → Z → M (json * Z)) (items : list json)
    (fixed_count : Z) : M (list json * Z) :=
  match items with
  | [] => mret ([], fixed_count)
  | item :: rest =>
      '(item, fixed_count) ← body item fixed_count;
      '(rest, fixed_count) ← for_in body rest fixed_count;
      mret (item :: rest, fixed_count)
  end.

(** The body of the inner loop, [for column in table.get("Columns", [])]. *)
Definition column_body (table_name : string) (problematic_cols : list string)
    (column : json) (fixed_count : Z) : M (json * Z) :=
  col_name ← py_get column "ColumnName" (JStr "");
  match list_in problematic_cols col_name with
  | Some col_name =>
      column ← py_setitem column "Enabled" (JBool false);
      print ("Disabled " +:+ table_name +:+ "." +:+ col_name);;
      mret (column, fixed_count + 1)
  | None => mret (column, fixed_count)
  end.

(** The body of the outer loop, [for table in config.get("Tables", [])]. *)
Definition table_body (table : json) (fixed_count : Z) : M (json * Z) :=
  table_name ← py_get table "TableName" (JStr "");
  problematic ← get_global;
  found ← dict_in problematic table_name;
  match found with
  | Some table_name =>
      problematic ← get_global;
      problematic_cols ← dict_getitem problematic table_name;
      columns ← py_get table "Columns" (JArr []);
      items ← py_iter columns;
      '(items, fixed_count) ←
        for_in (column_body table_name problematic_cols) items fixed_count;
      mret (update_elements table "Columns" items, fixed_count)
  | None => mret (table, fixed_count)
  end.

Section Script.

(** The [json] module of the standard library: [json.load] on the text
    of a file ([None] when it raises [JSONDecodeError]) and
    [json.dump(_, _, indent=2)]. *)
Variable json_load : string → option json.
Variable json_dump : json → string.

Definition loads (text : string) : M json :=
  match json_load text with
  | Some config => mret config
  | None => raise JSONDecodeError
  end.

(** Lines 31 to 43 of [fix_config]: the loops over the document held in
    memory.  It returns the document as the loops left it and the
    counter. *)
Definition disable_columns (config : json) : M (json * Z) :=
  let fixed_count := 0 in
  tables ← py_get config "Tables" (JArr []);
  items ← py_iter tables;
  '(items, fixed_count) ← for_in table_body items fixed_count;
  mret (update_elements config "Tables" items, fixed_count).

Definition fix_config (config_path : string) : M Z :=
  text ← open_read config_path;
  config ← loads text;
  '(config, fixed_count) ← disable_columns config;
  open_write config_path (json_dump config);;
  print ("Fixed " +:+ pretty fixed_count +:+ " problematic columns");;
  mret fixed_count.

(** The document [json.load] makes of the file at [path], when the
    file can be read and parsed. *)
Definition document (w : world) (path : string) : option json :=
  f ← fs w !! path;
  if readable f then json_load (content f) else None.

(** The file at [path] can be read and holds the text of [config]. *)
Definition loaded (w : world) (path : string) (config : json) : Prop :=
  document w path = Some config.

(** The file at [path] holds the serialisation of [config]. *)
Definition written (w : world) (path : string) (config : json) : Prop :=
  content <$> fs w !! path = Some (json_dump config).

(** The module run as a script with the command line [argv]. *)
Definition main (argv : list string) : M unit :=
  set_global PROBLEMATIC_COLUMNS;;
  let config_file := "JSON/AdventureWorks2019.json" in
  let config_file :=
    if decide (1 < length argv)%nat then default config_file (argv !! 1%nat)
    else config_file in
  fixed ← fix_config config_file;
  print ("Configuration fixed: " +:+ config_file).

End Script.

(** ** What the loops compute

    The result of a run that returns, as functions of the document. *)

Definition is_dict (o : json) : bool :=
  match o with JObj _ => true | _ => false end.

(** The name the inner loop tests: [column.get("ColumnName", "")]. *)
Definition col_name_of (d : dict) : json :=
  default (JStr "") (dict_get d "ColumnName").

(** The name the outer loop tests: [table.get("TableName", "")]. *)
Definition table_name_of (d : dict) : json :=
  default (JStr "") (dict_get d "TableName").

(** What the inner loop iterates over: [table.get("Columns", [])]. *)
Definition columns_of (d : dict) : json :=
  default (JArr []) (dict_get d "Columns").

(** One column after the body of the inner loop. *)
Definition disable_column (problematic_cols : list string) (column : json) : json :=
  match column with
  | JObj d =>
      match list_in problematic_cols (col_name_of d) with
      | Some _ => JObj (dict_set d "Enabled" (JBool false))
      | None => column
      end
  | _ => column
  end.

(** The line the body of the inner loop prints for a column, if any. *)
Definition column_notice (table_name : string) (problematic_cols : list string)
    (column : json) : list string :=
  match column with
  | JObj d =>
      match list_in problematic_cols (col_name_of d) with
      | Some col_name => ["Disabled " +:+ table_name +:+ "." +:+ col_name]
      | None => []
      end
  | _ => []
  end.

(** What the body of the inner loop adds to the counter for a column. *)
Definition column_hit (problematic_cols : list string) (column : json) : nat :=
  match column with
  | JObj d =>
      match list_in problematic_cols (col_name_of d) with
      | Some _ => 1%nat
      | None => 0%nat
      end
  | _ => 0%nat
  end.

(** The entry of the table the outer loop selects for a table, if any. *)
Definition selected (problematic : gmap string (list string)) (table : json)
  : option (string * list string) :=
  match table with
  | JObj d =>
      match table_name_of d with
      | JStr s => pair s <$> problematic !! s
      | _ => None
      end
  | _ => None
  end.

(** The elements the inner loop visits for a selected table. *)
Definition visited (table : json) : list json :=
  match table with
  | JObj d => default [] (elements (columns_of d))
  | _ => []
  end.

(** The body of the outer loop raises nothing on this table. *)
Definition table_ok (problematic : gmap string (list string)) (table : json) : bool :=
  match table with
  | JObj d =>
      match table_name_of d with
      | JStr s =>
          match problematic !! s with
          | Some _ =>
              match elements (columns_of d) with
              | Some items => forallb is_dict items
              | None => false
              end
          | None => true
          end
      | JArr _ | JObj _ => false
      | _ => true
      end
  | _ => false
  end.

(** One table after the body of the outer loop. *)
Definition disable_table (problematic : gmap string (list string)) (table : json)
  : json :=
  match selected problematic table with
  | Some (_, cols) =>
      update_elements table "Columns" (disable_column cols <$> visited table)
  | None => table
  end.

Definition table_notices (problematic : gmap string (list string)) (table : json)
  : list string :=
  match selected problematic table with
  | Some (name, cols) => visited table ≫= column_notice name cols
  | None => []
  end.

Definition table_hits (problematic : gmap string (list string)) (table : json)
  : nat :=
  match selected problematic table with
  | Some (_, cols) => sum_list_with (column_hit cols) (visited table)
  | None => 0%nat
  end.

(** The elements the outer loop visits. *)
Definition visited_tables (config : json) : list json :=
  match config with
  | JObj d => default [] (elements (default (JArr []) (dict_get d "Tables")))
  | _ => []
  end.

(** [disable_columns] raises nothing on this document. *)
Definition config_ok (problematic : gmap string (list string)) (config : json)
  : bool :=
  match config with
  | JObj d =>
      match elements (default (JArr []) (dict_get d "Tables")) with
      | Some items => forallb (table_ok problematic) items
      | None => false
      end
  | _ => false
  end.

(** The document, the printed lines and the counter after the loops. *)
Definition disable_config (problematic : gmap string (list string)) (config : json)
  : json :=
  update_elements config "Tables"
    (disable_table problematic <$> visited_tables config).

Definition config_notices (problematic : gmap string (list string)) (config : json)
  : list string :=
  visited_tables config ≫= table_notices problematic.

Definition config_hits (problematic : gmap string (list string)) (config : json)
  : nat :=
  sum_list_with (table_hits problematic) (visited_tables config).

(** ** The vocabulary of the configuration document

    A document is an object with a ["Tables"] array of Table entries; a
    Table entry has a ["TableName"] and a ["Columns"] array of Column
    entries; a Column entry has a ["ColumnName"] and an ["Enabled"] flag. *)

Definition field (o : json) (k : string) : option json :=
  match o with
  | JObj d => dict_get d k
  | _ => None
  end.

(** The entries of the array stored under [k]; none when the field is
    missing or is not an array. *)
Definition entries (o : json) (k : string) : list json :=
  match field o k with
  | Some (JArr items) => items
  | _ => []
  end.

Definition tables (config : json) : list json := entries config "Tables".

Definition columns (table : json) : list json := entries table "Columns".

(** The column [column] of the table [table] is named in the exclusion
    map: the table's name is a key of the map, and the column's name is in
    the list stored under that key. *)
Definition excluded (exclusions : gmap string (list string)) (table column : json)
  : bool :=
  match field table "TableName", field column "ColumnName" with
  | Some (JStr t), Some (JStr c) =>
      match exclusions !! t with
      | Some cols => bool_decide (c ∈ cols)
      | None => false
      end
  | _, _ => false
  end.

(** The number of (Table entry, Column entry) occurrences of a document
    that the exclusion map names. *)
Definition excluded_count (exclusions : gmap string (list string)) (config : json)
  : Z :=
  Z.of_nat
    (sum_list_with
       (λ table, length (filter (λ column, excluded exclusions table column = true)
                                (columns table)))
       (tables config)).

(** A column without its ["Enabled"] field, a table without the
    ["Enabled"] fields of its columns, a document without the ["Enabled"]
    fields of the columns of its tables: everything the field-preservation
    property speaks about, in the order the document has it. *)
Definition erase_column (column : json) : json :=
  match column with
  | JObj d => JObj (dict_without "Enabled" d)
  | _ => column
  end.

Definition erase_table (table : json) : json :=
  update_elements table "Columns" (erase_column <$> columns table).

Definition erase_config (config : json) : json :=
  update_elements config "Tables" (erase_table <$> tables config).

(** A document of the shape the specification describes, where a field
    that is present has the type the schema gives it. *)
Definition field_is (ok : json → bool) (o : json) (k : string) : bool :=
  match field o k with
  | Some v => ok v
  | None => true
  end.

Definition is_str (o : json) : bool :=
  match o with JStr _ => true | _ => false end.

Definition is_bool (o : json) : bool :=
  match o with JBool _ => true | _ => false end.

Definition is_array_of (ok : json → bool) (o : json) : bool :=
  match o with JArr items => forallb ok items | _ => false end.

Definition column_conforms (column : json) : bool :=
  is_dict column && field_is is_str column "ColumnName"
  && field_is is_bool column "Enabled".

Definition table_conforms (table : json) : bool :=
  is_dict table && field_is is_str table "TableName"
  && field_is (is_array_of column_conforms) table "Columns".

Definition conforms (config : json) : bool :=
  is_dict config && field_is (is_array_of table_conforms) config "Tables".

(** ** Predicates used in the proofs *)

(** A computation keeps the files and the module global. *)
Definition keeps {A} (m : M A) : Prop :=
  ∀ w w' r, m w = (w', r) → fs w' = fs w ∧ globals w' = globals w.

(** No table and no column of the map is named by the empty string, the
    name the loops give to an entry that has none. *)
Definition names_nonempty (exclusions : gmap string (list string)) : Prop :=
  exclusions !! "" = None ∧ map_Forall (λ _ cols, "" ∉ cols) exclusions.

(** A list of elements none of which is an object. *)
Definition no_dict (items : list json) : Prop :=
  Forall (λ x, is_dict x = false) items.

(** ** A sample run

    A codec that stands in for the [json] module on a few sample
    documents, a file system holding them, and the module global as the
    module body leaves it. *)

Fixpoint sample_dump (j : json) : string :=
  match j with
  | JNull => "null"
  | JBool true => "true"
  | JBool false => "false"
  | JInt n => pretty n
  | JFloat bits => "float " +:+ pretty bits
  | JStr s => "'" +:+ s +:+ "'"
  | JArr items =>
      "[" +:+ (fix go (l : list json) : string :=
                 match l with
                 | [] => ""
                 | x :: l' => sample_dump x +:+ "," +:+ go l'
                 end) items +:+ "]"
  | JObj d =>
      "{" +:+ (fix go (l : list (string * json)) : string :=
                 match l with
                 | [] => ""
                 | (k, v) :: l' =>
                     "'" +:+ k +:+ "':" +:+ sample_dump v +:+ "," +:+ go l'
                 end) d +:+ "}"
  end.

Definition sample_column (name : string) (enabled : bool) : json :=
  JObj [("ColumnName", JStr name); ("Enabled", JBool enabled);
        ("DataType", JStr "int")].

Definition sample_config : json :=
  JObj [("Version", JInt 1);
        ("Tables", JArr [
           JObj [("TableName", JStr "Sales.SalesOrderDetail");
                 ("Schema", JStr "Sales");
                 ("Columns", JArr [sample_column "SalesOrderDetailID" true;
                                   sample_column "OrderQty" true])];
           JObj [("TableName", JStr "HumanResources.Employee");
                 ("Columns", JArr [sample_column "LocationID" true])];
           JObj [("TableName", JStr "Sales.SalesPerson");
                 ("Columns", JArr [sample_column "SalesLastYear" false])];
           JObj [("TableName", JStr "Purchasing.ShipMethod")];
           JObj [("Columns", JArr [JObj [("Enabled", JBool true)]])]])].

(** [sample_config] after a run. *)
Definition sample_patched : json :=
  JObj [("Version", JInt 1);
        ("Tables", JArr [
           JObj [("TableName", JStr "Sales.SalesOrderDetail");
                 ("Schema", JStr "Sales");
                 ("Columns", JArr [sample_column "SalesOrderDetailID" false;
                                   sample_column "OrderQty" true])];
           JObj [("TableName", JStr "HumanResources.Employee");
                 ("Columns", JArr [sample_column "LocationID" true])];
           JObj [("TableName", JStr "Sales.SalesPerson");
                 ("Columns", JArr [sample_column "SalesLastYear" false])];
           JObj [("TableName", JStr "Purchasing.ShipMethod")];
           JObj [("Columns", JArr [JObj [("Enabled", JBool true)]])]])].

(** A document without ["Tables"]. *)
Definition sample_bare : dict := [("Version", JInt 1)].

(** The codec reads back the sample documents it wrote, and nothing
    else. *)
Definition sample_load (text : string) : option json :=
  list_find (λ j, sample_dump j = text)
            [sample_config; sample_patched; JObj sample_bare]
  ≫= λ found, Some found.2.

Definition sample_fs : gmap string file :=
  {[ "config.json" := File true true (sample_dump sample_config);
     "bare.json" := File true true (sample_dump (JObj sample_bare));
     "broken.json" := File true true "{'Tables': [";
     "secret.json" := File false false (sample_dump sample_config) ]}.

Definition sample_world : world := World sample_fs [] PROBLEMATIC_COLUMNS.

(** [sample_world] after [fix_config] ran on ["config.json"]. *)
Definition sample_world_after : world :=
  World (<["config.json" := File true true (sample_dump sample_patched)]>
           sample_fs)
        ["Disabled Sales.SalesOrderDetail.SalesOrderDetailID";
         "Disabled Sales.SalesPerson.SalesLastYear";
         "Fixed 2 problematic columns"]
        PROBLEMATIC_COLUMNS.

(** A table that the exclusion map selects and that has no ["Columns"]. *)
Definition sample_no_columns : dict :=
  [("TableName", JStr "Purchasing.ShipMethod")].

(** ** More vocabulary: names, keys and printed notices *)

(** The keys of an entry, in the order the document has them. *)
Definition keys (o : json) : list string :=
  match o with
  | JObj d => dict_keys d
  | _ => []
  end.

(** The [str] stored under [k], for an entry that has one. *)
Definition name_at (o : json) (k : string) : string :=
  match field o k with
  | Some (JStr s) => s
  | _ => ""
  end.

(** The notices of a document: one line [Disabled <TableName>.<ColumnName>]
    for each (Table entry, Column entry) occurrence that the exclusion map
    names, tables in order and columns in order within a table. *)
Definition disabled_notices (exclusions : gmap string (list string))
    (config : json) : list string :=
  table ← tables config;
  column ← columns table;
  if excluded exclusions table column
  then ["Disabled " +:+ name_at table "TableName" +:+ "."
        +:+ name_at column "ColumnName"]
  else [].

(** The path the script works on: its first argument, or the default. *)
Definition script_path (argv : list string) : string :=
  default "JSON/AdventureWorks2019.json" (argv !! 1%nat).

(** ** More sample files

    A codec that reads back the documents of a given list, a file that may
    be read but not written, and files whose documents do not have the
    shape the loops expect. *)

Definition sample_load_among (docs : list json) (text : string) : option json :=
  list_find (λ j, sample_dump j = text) docs ≫= λ found, Some found.2.

(** A document whose ["Tables"] holds an entry that is not an object,
    after an entry the exclusion map selects. *)
Definition sample_mixed : json :=
  JObj [("Tables", JArr [
           JObj [("TableName", JStr "Sales.SalesPerson");
                 ("Columns", JArr [sample_column "SalesLastYear" true])];
           JStr "Sales.SalesTerritory"])].

(** A document whose ["Tables"] is not iterable. *)
Definition sample_null_tables : json := JObj [("Tables", JNull)].

(** A table the map does not select, with columns that are not objects,
    and a selected table whose column has no ["Enabled"]. *)
Definition sample_odd : json :=
  JObj [("Tables", JArr [
           JObj [("Columns", JArr [JInt 7; JNull]);
                 ("TableName", JStr "dbo.Audit")];
           JObj [("TableName", JStr "Sales.SalesPerson");
                 ("Columns", JArr [JObj [("ColumnName", JStr "SalesLastYear")]])]]);
        ("Version", JInt 2)].

Definition sample_docs : list json :=
  [sample_config; sample_patched; sample_mixed; sample_null_tables;
   sample_odd; JArr []].

Definition sample_fs_more : gmap string file :=
  {[ "JSON/AdventureWorks2019.json" := File true true (sample_dump sample_config);
     "readonly.json" := File true false (sample_dump sample_config);
     "mixed.json" := File true true (sample_dump sample_mixed);
     "null.json" := File true true (sample_dump sample_null_tables);
     "odd.json" := File true true (sample_dump sample_odd);
     "list.json" := File true true (sample_dump (JArr [])) ]}.

Definition sample_world_more : world :=
  World sample_fs_more [] PROBLEMATIC_COLUMNS.

(** The same files before the module body has run. *)
Definition sample_world_fresh : world := World sample_fs_more [] ∅.

(** ** Facts about [dict] *)

Lemma dict_get_set_eq (d : dict) k v : dict_get (dict_set d k v) k = Some v.
Proof.
  induction d as [|[k' v'] d IH]; simpl.
  - by rewrite String.eqb_refl.
  - destruct (String.eqb k' k) eqn:E; simpl; by rewrite E.
Qed.

Lemma dict_get_set_ne (d : dict) k k' v :
  k ≠ k' → dict_get (dict_set d k v) k' = dict_get d k'.
Proof.
  intros Hne. induction d as [|[k0 v0] d IH]; simpl.
  - destruct (String.eqb k k') eqn:E; [|done].
    by apply String.eqb_eq in E.
  - destruct (String.eqb k0 k) eqn:E; simpl; [|by rewrite IH].
    apply String.eqb_eq in E as ->.
    destruct (String.eqb k k') eqn:E'; [|done].
    by apply String.eqb_eq in E'.
Qed.

Lemma dict_set_set (d : dict) k v v' :
  dict_set (dict_set d k v) k v' = dict_set d k v'.
Proof.
  induction d as [|[k0 v0] d IH]; simpl.
  - by rewrite String.eqb_refl.
  - destruct (String.eqb k0 k) eqn:E; simpl; rewrite E; [done|by rewrite IH].
Qed.

Lemma dict_set_same (d : dict) k v :
  dict_get d k = Some v → dict_set d k v = d.
Proof.
  induction d as [|[k0 v0] d IH]; simpl; [done|].
  destruct (String.eqb k0 k) eqn:E.
  - by intros [= ->].
  - intros H. by rewrite IH.
Qed.


Lemma dict_without_set (d : dict) k v :
  dict_without k (dict_set d k v) = dict_without k d.
Proof.
  unfold dict_without. induction d as [|[k0 v0] d IH]; simpl.
  - by rewrite filter_cons_False; [|simpl; auto].
  - destruct (String.eqb k0 k) eqn:E.
    + apply String.eqb_eq in E as ->.
      rewrite !filter_cons_False; simpl; auto.
    + apply String.eqb_neq in E.
      rewrite !filter_cons_True; simpl; auto. by rewrite IH.
Qed.


(** ** Running the monad *)

Lemma bind_run {A B} (m : M A) (k : A → M B) w :
  (m ≫= k) w = match m w with
               | (w', inr a) => k a w'
               | (w', inl e) => (w', inl e)
               end.
Proof. reflexivity. Qed.

Lemma ret_run {A} (a : A) w : (mret a : M A) w = (w, inr a).
Proof. reflexivity. Qed.

Lemma keeps_ret {A} (a : A) : keeps (mret a : M A).
Proof. intros w w' r [= <- <-]. done. Qed.

Lemma keeps_raise {A} e : keeps (raise e : M A).
Proof. intros w w' r [= <- <-]. done. Qed.

Lemma keeps_print line : keeps (print line).
Proof. intros w w' r [= <- <-]. done. Qed.

Lemma keeps_get_global : keeps get_global.
Proof. intros w w' r [= <- <-]. done. Qed.

Lemma keeps_bind {A B} (m : M A) (k : A → M B) :
  keeps m → (∀ a, keeps (k a)) → keeps (m ≫= k).
Proof.
  intros Hm Hk w w' r. rewrite bind_run.
  destruct (m w) as [w1 [e|a]] eqn:E; destruct (Hm _ _ _ E) as [Hf Hg].
  - intros [= <- <-]. done.
  - intros H. destruct (Hk _ _ _ _ H) as [Hf' Hg']. split; congruence.
Qed.

Lemma keeps_py_get o k dflt : keeps (py_get o k dflt).
Proof. destruct o; first [apply keeps_ret | apply keeps_raise]. Qed.

Lemma keeps_py_setitem o k v : keeps (py_setitem o k v).
Proof. destruct o; first [apply keeps_ret | apply keeps_raise]. Qed.

Lemma keeps_py_iter o : keeps (py_iter o).
Proof.
  unfold py_iter. destruct (elements o); [apply keeps_ret | apply keeps_raise].
Qed.

Lemma keeps_dict_in d key : keeps (dict_in d key).
Proof. destruct key; first [apply keeps_ret | apply keeps_raise]. Qed.

Lemma keeps_dict_getitem d key : keeps (dict_getitem d key).
Proof.
  unfold dict_getitem. destruct (d !! key); [apply keeps_ret | apply keeps_raise].
Qed.

Create HintDb keeps.

#[local] Hint Resolve keeps_ret keeps_raise keeps_print keeps_get_global
  keeps_py_get keeps_py_setitem keeps_py_iter keeps_dict_in keeps_dict_getitem
  : keeps.

Ltac keeps_step :=
  first
    [ apply keeps_bind; [|intros ?]
    | match goal with |- keeps (match ?x with _ => _ end) => destruct x end
    | solve [eauto with keeps] ].

Lemma keeps_for_in body items n :
  (∀ x k, keeps (body x k)) → keeps (for_in body items n).
Proof.
  intros Hbody. revert n. induction items as [|x xs IH]; intros n; simpl.
  - apply keeps_ret.
  - repeat keeps_step.
Qed.

Lemma keeps_column_body table_name cols column n :
  keeps (column_body table_name cols column n).
Proof. unfold column_body. repeat keeps_step. Qed.

Lemma keeps_table_body table n : keeps (table_body table n).
Proof.
  unfold table_body. repeat keeps_step.
  apply keeps_for_in. intros. apply keeps_column_body.
Qed.

(** ** The loops, run *)

Lemma world_eta w : World (fs w) (stdout w ++ []) (globals w) = w.
Proof. destruct w; simpl. by rewrite app_nil_r. Qed.

Ltac run := repeat (rewrite ?bind_run, ?ret_run; simpl).

Section Loop.

(** A loop body that, on the elements [ok] accepts and under the module
    global [problematic], changes the element to [change x], prints
    [notice x] and adds [hit x] to the counter. *)
Variable body : json → Z → M (json * Z).
Variable problematic : gmap string (list string).
Variable ok : json → bool.
Variable change : json → json.
Variable notice : json → list string.
Variable hit : json → nat.

Hypothesis body_keeps : ∀ x n, keeps (body x n).

Hypothesis body_ok : ∀ x n w,
  globals w = problematic → ok x = true →
  body x n w = (World (fs w) (stdout w ++ notice x) (globals w),
                inr (change x, n + Z.of_nat (hit x))).

Hypothesis body_inv : ∀ x n w w' r,
  globals w = problematic → body x n w = (w', inr r) → ok x = true.

Lemma for_in_ok items n w :
  globals w = problematic → forallb ok items = true →
  for_in body items n w =
    (World (fs w) (stdout w ++ (items ≫= notice)) (globals w),
     inr (change <$> items, n + Z.of_nat (sum_list_with hit items))).
Proof.
  revert n w. induction items as [|x xs IH]; intros n w Hg Hall.
  - simpl. rewrite world_eta, Z.add_0_r. reflexivity.
  - apply andb_prop in Hall as [Hx Hxs]. simpl for_in.
    rewrite bind_run, (body_ok _ _ _ Hg Hx), bind_run, IH by done.
    run. rewrite <- app_assoc. do 3 f_equal. lia.
Qed.

Lemma for_in_inv items n w w' r :
  globals w = problematic → for_in body items n w = (w', inr r) →
  forallb ok items = true.
Proof.
  revert n w w' r.
  induction items as [|x xs IH]; intros n w w' r Hg; [done|].
  simpl for_in. rewrite bind_run.
  destruct (body x n w) as [w1 [e|[x1 n1]]] eqn:Ebody; [discriminate|].
  rewrite bind_run.
  destruct (for_in body xs n1 w1) as [w2 [e|[xs2 n2]]] eqn:Eloop;
    [discriminate|].
  intros _. simpl. apply andb_true_intro. split.
  - eapply body_inv; eauto.
  - eapply IH; [|exact Eloop].
    destruct (body_keeps _ _ _ _ _ Ebody) as [_ ->]. done.
Qed.

End Loop.

#[local] Arguments update_elements : simpl never.

Lemma column_body_ok table_name cols column n w :
  is_dict column = true →
  column_body table_name cols column n w =
    (World (fs w) (stdout w ++ column_notice table_name cols column) (globals w),
     inr (disable_column cols column, n + Z.of_nat (column_hit cols column))).
Proof.
  destruct column; try discriminate. intros _.
  unfold column_body, disable_column, column_notice, column_hit.
  simpl py_get. rewrite bind_run, ret_run. fold (col_name_of fields).
  destruct (list_in cols (col_name_of fields)) as [name|]; run.
  - reflexivity.
  - by rewrite world_eta, Z.add_0_r.
Qed.

Lemma column_body_inv table_name cols column n w w' r :
  column_body table_name cols column n w = (w', inr r) → is_dict column = true.
Proof. destruct column; try discriminate. done. Qed.

Lemma for_column_ok table_name cols items n w :
  forallb is_dict items = true →
  for_in (column_body table_name cols) items n w =
    (World (fs w) (stdout w ++ (items ≫= column_notice table_name cols))
           (globals w),
     inr (disable_column cols <$> items,
          n + Z.of_nat (sum_list_with (column_hit cols) items))).
Proof.
  intros Hall. apply (for_in_ok _ (globals w) is_dict); [|done|done].
  intros x k w0 _ Hx. by apply column_body_ok.
Qed.

Lemma for_column_inv table_name cols items n w w' r :
  for_in (column_body table_name cols) items n w = (w', inr r) →
  forallb is_dict items = true.
Proof.
  apply (for_in_inv _ (globals w)); [|intros ?????? H|done].
  - intros. apply keeps_column_body.
  - by apply column_body_inv in H.
Qed.

Lemma table_body_ok table n w :
  table_ok (globals w) table = true →
  table_body table n w =
    (World (fs w) (stdout w ++ table_notices (globals w) table) (globals w),
     inr (disable_table (globals w) table,
          n + Z.of_nat (table_hits (globals w) table))).
Proof.
  destruct table; try discriminate.
  unfold table_body, table_ok, disable_table, table_notices, table_hits,
    selected, visited.
  simpl py_get. rewrite bind_run, ret_run. fold (table_name_of fields).
  rewrite bind_run. unfold get_global at 1.
  destruct (table_name_of fields) as [| | | |s| |]; try discriminate;
    try (intros _; run; by rewrite world_eta, Z.add_0_r).
  simpl dict_in. rewrite bind_run, ret_run.
  destruct (globals w !! s) as [cols|] eqn:Hs; simpl.
  - rewrite bind_run. unfold get_global.
    rewrite bind_run. unfold dict_getitem. rewrite Hs, ret_run, bind_run, ret_run.
    fold (columns_of fields). rewrite bind_run. unfold py_iter.
    destruct (elements (columns_of fields)) as [items|]; [|discriminate].
    intros Hall. rewrite ret_run, bind_run, for_column_ok by done. run.
    reflexivity.
  - intros _. run. by rewrite world_eta, Z.add_0_r.
Qed.

Lemma table_body_inv table n w w' r :
  table_body table n w = (w', inr r) → table_ok (globals w) table = true.
Proof.
  destruct table; try discriminate.
  unfold table_body, table_ok.
  simpl py_get. rewrite bind_run, ret_run. fold (table_name_of fields).
  rewrite bind_run. unfold get_global at 1.
  destruct (table_name_of fields) as [| | | |s| |]; try discriminate; try done.
  simpl dict_in. rewrite bind_run, ret_run.
  destruct (globals w !! s) as [cols|] eqn:Hs; simpl; [|done].
  rewrite bind_run. unfold get_global.
  rewrite bind_run. unfold dict_getitem. rewrite Hs, ret_run, bind_run, ret_run.
  fold (columns_of fields). rewrite bind_run. unfold py_iter.
  destruct (elements (columns_of fields)) as [items|]; [|discriminate].
  rewrite ret_run, bind_run.
  destruct (for_in _ items n w) as [w1 [e|[xs k]]] eqn:E; [discriminate|].
  intros _. eapply for_column_inv, E.
Qed.

Lemma for_table_ok items n w :
  forallb (table_ok (globals w)) items = true →
  for_in table_body items n w =
    (World (fs w) (stdout w ++ (items ≫= table_notices (globals w))) (globals w),
     inr (disable_table (globals w) <$> items,
          n + Z.of_nat (sum_list_with (table_hits (globals w)) items))).
Proof.
  intros Hall.
  apply (for_in_ok _ (globals w) (table_ok (globals w))); [|done|done].
  intros x k w0 <- Hx. by apply table_body_ok.
Qed.

Lemma for_table_inv items n w w' r :
  for_in table_body items n w = (w', inr r) →
  forallb (table_ok (globals w)) items = true.
Proof.
  apply (for_in_inv _ (globals w)); [|intros ????? <- H|done].
  - intros. apply keeps_table_body.
  - by apply table_body_inv in H.
Qed.

Lemma keeps_disable_columns config : keeps (disable_columns config).
Proof.
  unfold disable_columns. repeat keeps_step.
  apply keeps_for_in. intros. apply keeps_table_body.
Qed.

Lemma disable_columns_ok config w :
  config_ok (globals w) config = true →
  disable_columns config w =
    (World (fs w) (stdout w ++ config_notices (globals w) config) (globals w),
     inr (disable_config (globals w) config,
          Z.of_nat (config_hits (globals w) config))).
Proof.
  destruct config; try discriminate.
  unfold disable_columns, config_ok, disable_config, config_notices,
    config_hits, visited_tables.
  simpl py_get. rewrite bind_run, ret_run, bind_run. unfold py_iter.
  destruct (elements _) as [items|]; [|discriminate].
  intros Hall. rewrite ret_run, bind_run, for_table_ok by done. run.
  reflexivity.
Qed.

Lemma disable_columns_inv config w w' r :
  disable_columns config w = (w', inr r) → config_ok (globals w) config = true.
Proof.
  destruct config; try discriminate.
  unfold disable_columns, config_ok.
  simpl py_get. rewrite bind_run, ret_run, bind_run. unfold py_iter.
  destruct (elements _) as [items|]; [|discriminate].
  rewrite ret_run, bind_run.
  destruct (for_in _ items 0 w) as [w1 [e|[xs k]]] eqn:E; [discriminate|].
  intros _. eapply for_table_inv, E.
Qed.

(** A run of [disable_columns] that returns is described by
    [disable_config], [config_notices] and [config_hits]. *)
Lemma disable_columns_returns config w w' config' n :
  disable_columns config w = (w', inr (config', n)) →
  config_ok (globals w) config = true
  ∧ config' = disable_config (globals w) config
  ∧ n = Z.of_nat (config_hits (globals w) config)
  ∧ w' = World (fs w) (stdout w ++ config_notices (globals w) config) (globals w).
Proof.
  intros Hrun. pose proof (disable_columns_inv _ _ _ _ Hrun) as Hok.
  rewrite disable_columns_ok in Hrun by done.
  injection Hrun as <- <- <-. done.
Qed.

Section ScriptFacts.

Variable json_load : string → option json.
Variable json_dump : json → string.

Lemma loaded_inj w path config1 config2 :
  loaded json_load w path config1 → loaded json_load w path config2 →
  config1 = config2.
Proof. unfold loaded. congruence. Qed.

Lemma loaded_file w path config :
  loaded json_load w path config →
  ∃ f, fs w !! path = Some f ∧ readable f = true
       ∧ json_load (content f) = Some config.
Proof.
  unfold loaded, document. destruct (fs w !! path) as [f|]; [|done]. simpl.
  destruct (readable f) eqn:Hr; [|done]. intros H. by exists f.
Qed.

Lemma file_loaded w path f config :
  fs w !! path = Some f → readable f = true →
  json_load (content f) = Some config → loaded json_load w path config.
Proof. unfold loaded, document. intros -> Hr Hl. simpl. by rewrite Hr. Qed.


(** What [fix_config] does on a file it can read, parse, patch and
    write. *)
Lemma fix_config_ok path w f config :
  fs w !! path = Some f → readable f = true → writable f = true →
  json_load (content f) = Some config →
  config_ok (globals w) config = true →
  fix_config json_load json_dump path w =
    (World (<[path := File true true
                       (json_dump (disable_config (globals w) config))]> (fs w))
           ((stdout w ++ config_notices (globals w) config)
            ++ ["Fixed " +:+ pretty (Z.of_nat (config_hits (globals w) config))
                +:+ " problematic columns"])
           (globals w),
     inr (Z.of_nat (config_hits (globals w) config))).
Proof.
  intros Hf Hr Hw Hload Hok. unfold fix_config.
  rewrite bind_run. unfold open_read. rewrite Hf, Hr.
  rewrite bind_run. unfold loads. rewrite Hload, ret_run.
  rewrite bind_run, disable_columns_ok by done.
  rewrite bind_run. unfold open_write. simpl fs. rewrite Hf, Hw, Hr.
  run. reflexivity.
Qed.

(** A run of [fix_config] that returns read, parsed, patched and wrote
    the file. *)
Lemma fix_config_inv path w w' n :
  fix_config json_load json_dump path w = (w', inr n) →
  ∃ f config,
    fs w !! path = Some f ∧ readable f = true ∧ writable f = true
    ∧ json_load (content f) = Some config
    ∧ config_ok (globals w) config = true.
Proof.
  unfold fix_config. rewrite bind_run. unfold open_read.
  destruct (fs w !! path) as [f|] eqn:Hf; [|discriminate].
  destruct (readable f) eqn:Hr; [|discriminate].
  rewrite bind_run. unfold loads.
  destruct (json_load (content f)) as [config|] eqn:Hload; [|discriminate].
  rewrite ret_run, bind_run.
  destruct (disable_columns config w) as [w1 [e|[config' k]]] eqn:Hrun;
    [discriminate|].
  apply disable_columns_returns in Hrun as (Hok & -> & -> & ->).
  rewrite bind_run. unfold open_write. simpl fs. rewrite Hf.
  destruct (writable f) eqn:Hw; [|discriminate].
  intros _. by exists f, config.
Qed.

(** The two together: the world and the result of a run that returns,
    for the document the file holds. *)
Lemma fix_config_returns path w w' n config :
  loaded json_load w path config →
  fix_config json_load json_dump path w = (w', inr n) →
  config_ok (globals w) config = true
  ∧ written json_dump w' path (disable_config (globals w) config)
  ∧ n = Z.of_nat (config_hits (globals w) config)
  ∧ globals w' = globals w
  ∧ ∀ path', path' ≠ path → fs w' !! path' = fs w !! path'.
Proof.
  intros Hloaded Hrun.
  destruct (fix_config_inv _ _ _ _ Hrun) as (f & config0 & Hf & Hr & Hw & Hl & Hok).
  assert (config0 = config) as ->
    by (eapply loaded_inj; [by eapply file_loaded|done]).
  rewrite (fix_config_ok _ _ _ _ Hf Hr Hw Hl Hok) in Hrun.
  injection Hrun as <- <-. split; [done|]. split; [|split; [done|split; [done|]]].
  - unfold written. simpl. by rewrite lookup_insert_eq.
  - intros path' Hne. simpl. by rewrite lookup_insert_ne.
Qed.

End ScriptFacts.

(** ** The document after the loops *)

Lemma field_update_ne o k k' items :
  k ≠ k' → field (update_elements o k items) k' = field o k'.
Proof.
  intros Hne. unfold update_elements. destruct o; try done.
  destruct (dict_get fields k) as [[]|]; try done.
  simpl. by apply dict_get_set_ne.
Qed.

Lemma entries_update o k items :
  entries (update_elements o k items) k =
    match field o k with Some (JArr _) => items | _ => [] end.
Proof.
  unfold entries, update_elements. destruct o; try done. simpl.
  destruct (dict_get fields k) as [[]|] eqn:E; simpl; rewrite ?E; try done.
  by rewrite dict_get_set_eq.
Qed.

Lemma update_update o k items items' :
  update_elements (update_elements o k items) k items' =
    update_elements o k items'.
Proof.
  unfold update_elements. destruct o; try done.
  destruct (dict_get fields k) as [[]|] eqn:E; rewrite ?E; try done.
  by rewrite dict_get_set_eq, dict_set_set.
Qed.


(** The elements the loops visit, beyond the entries of an array, are the
    characters of a string or the keys of an object: strings, on which
    the loop bodies change and count nothing when they do not raise. *)
Lemma visited_tables_array config items :
  field config "Tables" = Some (JArr items) → visited_tables config = items.
Proof. destruct config; try done. simpl. by intros ->. Qed.

Lemma visited_array table items :
  field table "Columns" = Some (JArr items) → visited table = items.
Proof.
  destruct table; try done. unfold visited, columns_of. simpl. by intros ->.
Qed.

Lemma tables_disable_config problematic config :
  tables (disable_config problematic config) =
    disable_table problematic <$> tables config.
Proof.
  unfold tables, disable_config. rewrite entries_update. unfold entries.
  destruct (field config "Tables") as [[]|] eqn:E; try done.
  by rewrite (visited_tables_array _ _ E).
Qed.


Lemma columns_disable_table problematic table :
  columns (disable_table problematic table) =
    match selected problematic table with
    | Some (_, cols) => disable_column cols <$> columns table
    | None => columns table
    end.
Proof.
  unfold columns, disable_table.
  destruct (selected problematic table) as [[name cols]|]; [|done].
  rewrite entries_update. unfold entries.
  destruct (field table "Columns") as [[]|] eqn:E; try done.
  by rewrite (visited_array _ _ E).
Qed.

Lemma field_disable_table problematic table k :
  k ≠ "Columns" → field (disable_table problematic table) k = field table k.
Proof.
  intros Hne. unfold disable_table.
  destruct (selected problematic table) as [[name cols]|]; [|done].
  by apply field_update_ne.
Qed.

Lemma field_disable_column cols column k :
  k ≠ "Enabled" → field (disable_column cols column) k = field column k.
Proof.
  intros Hne. destruct column; try done. simpl.
  destruct (list_in cols (col_name_of fields)); [|done].
  simpl. by apply dict_get_set_ne.
Qed.

Lemma column_hit_cases cols column :
  (column_hit cols column = 1%nat
   ∧ field (disable_column cols column) "Enabled" = Some (JBool false))
  ∨ (column_hit cols column = 0%nat ∧ disable_column cols column = column).
Proof.
  destruct column; try (by right). simpl.
  destruct (list_in cols (col_name_of fields)); [left|by right].
  simpl. by rewrite dict_get_set_eq.
Qed.

(** Under such a map the loops select exactly the columns the map names. *)
Lemma excluded_hit exclusions table column :
  names_nonempty exclusions →
  excluded exclusions table column =
    match selected exclusions table with
    | Some (_, cols) => bool_decide (column_hit cols column = 1%nat)
    | None => false
    end.
Proof.
  intros [Hkey Hcols]. unfold excluded, selected.
  destruct table as [| | | | | |t]; try done. simpl. unfold table_name_of.
  destruct (dict_get t "TableName") as [[| | | |s| |]|]; simpl; try done.
  - destruct (exclusions !! s) as [cols|] eqn:Hs; simpl.
    + pose proof (Hcols _ _ Hs) as Hne. simpl in Hne.
      destruct column as [| | | | | |c]; try reflexivity.
      simpl. unfold col_name_of.
      destruct (dict_get c "ColumnName") as [[| | | |x| |]|]; simpl; try done.
      * destruct (decide (x ∈ cols)).
        -- by rewrite !bool_decide_eq_true_2.
        -- by rewrite !bool_decide_eq_false_2.
      * by rewrite decide_False.
    + by destruct (field column "ColumnName") as [[]|].
  - by rewrite Hkey.
Qed.

Lemma PROBLEMATIC_COLUMNS_names_nonempty : names_nonempty PROBLEMATIC_COLUMNS.
Proof.
  split; [by vm_compute|].
  apply (bool_decide_unpack _). by vm_compute.
Qed.

(** *** Elements that are not objects *)

Lemma no_dict_chars s : no_dict (chars s).
Proof. induction s; constructor; done. Qed.

Lemma no_dict_keys (l : list string) : no_dict (JStr <$> l).
Proof. induction l; constructor; done. Qed.

(** What a loop visits is an array's entries, or holds no object. *)
Lemma visited_cases table :
  (∃ items, field table "Columns" = Some (JArr items) ∧ visited table = items)
  ∨ (columns table = [] ∧ no_dict (visited table)
     ∧ ∀ items, update_elements table "Columns" items = table).
Proof.
  destruct table as [| | | | | |d]; try (right; repeat split; by constructor).
  unfold visited, columns, entries, update_elements, columns_of. simpl.
  destruct (dict_get d "Columns") as [v|] eqn:E; simpl;
    [|right; repeat split; by constructor].
  destruct v; simpl; try (right; repeat split; by constructor).
  - right. repeat split; auto using no_dict_chars.
  - left. eauto.
  - right. repeat split; auto using no_dict_keys.
Qed.

Lemma visited_tables_cases config :
  (∃ items, field config "Tables" = Some (JArr items)
            ∧ visited_tables config = items)
  ∨ (tables config = [] ∧ no_dict (visited_tables config)
     ∧ ∀ items, update_elements config "Tables" items = config).
Proof.
  destruct config as [| | | | | |d]; try (right; repeat split; by constructor).
  unfold visited_tables, tables, entries, update_elements. simpl.
  destruct (dict_get d "Tables") as [v|] eqn:E; simpl;
    [|right; repeat split; by constructor].
  destruct v; simpl; try (right; repeat split; by constructor).
  - right. repeat split; auto using no_dict_chars.
  - left. eauto.
  - right. repeat split; auto using no_dict_keys.
Qed.

Lemma no_dict_fmap (f : json → json) items :
  (∀ x, is_dict x = false → f x = x) → no_dict items → f <$> items = items.
Proof.
  intros Hf. induction 1 as [|x xs Hx _ IH]; [done|].
  rewrite fmap_cons, IH. f_equal. auto.
Qed.

Lemma no_dict_sum (f : json → nat) items :
  (∀ x, is_dict x = false → f x = 0%nat) → no_dict items →
  sum_list_with f items = 0%nat.
Proof.
  intros Hf. induction 1 as [|x xs Hx _ IH]; [done|].
  simpl. rewrite IH, Hf; done.
Qed.

Lemma disable_column_no_dict cols x :
  is_dict x = false → disable_column cols x = x.
Proof. by destruct x. Qed.

Lemma column_hit_no_dict cols x : is_dict x = false → column_hit cols x = 0%nat.
Proof. by destruct x. Qed.

Lemma selected_no_dict problematic x :
  is_dict x = false → selected problematic x = None.
Proof. by destruct x. Qed.

Lemma disable_table_no_dict problematic x :
  is_dict x = false → disable_table problematic x = x.
Proof. intros H. unfold disable_table. by rewrite selected_no_dict. Qed.

Lemma table_hits_no_dict problematic x :
  is_dict x = false → table_hits problematic x = 0%nat.
Proof. intros H. unfold table_hits. by rewrite selected_no_dict. Qed.

(** *** The counter *)

Lemma hits_visited cols table :
  sum_list_with (column_hit cols) (visited table) =
    sum_list_with (column_hit cols) (columns table).
Proof.
  destruct (visited_cases table) as [(items & Hf & ->)|(-> & Hno & _)].
  - unfold columns, entries. by rewrite Hf.
  - apply no_dict_sum; auto using column_hit_no_dict.
Qed.

Lemma hits_visited_tables problematic config :
  config_hits problematic config =
    sum_list_with (table_hits problematic) (tables config).
Proof.
  unfold config_hits.
  destruct (visited_tables_cases config) as [(items & Hf & ->)|(-> & Hno & _)].
  - unfold tables, entries. by rewrite Hf.
  - apply no_dict_sum; auto using table_hits_no_dict.
Qed.

Lemma length_filter_sum {A} (P : A → Prop) `{∀ x, Decision (P x)} (l : list A) :
  length (filter P l) = sum_list_with (λ x, if decide (P x) then 1 else 0)%nat l.
Proof.
  induction l as [|x xs IH]; [done|].
  rewrite filter_cons. simpl. destruct (decide (P x)); simpl; by rewrite IH.
Qed.

Lemma sum_list_with_ext {A} (f g : A → nat) l :
  (∀ x, f x = g x) → sum_list_with f l = sum_list_with g l.
Proof. intros Hfg. induction l; simpl; [done|]. by rewrite Hfg, IHl. Qed.

Lemma column_hit_le cols column : (column_hit cols column ≤ 1)%nat.
Proof.
  destruct column; simpl; try lia. destruct (list_in _ _); lia.
Qed.

Lemma excluded_count_hits exclusions config :
  names_nonempty exclusions →
  excluded_count exclusions config = Z.of_nat (config_hits exclusions config).
Proof.
  intros Hne. unfold excluded_count. rewrite hits_visited_tables. f_equal.
  apply sum_list_with_ext. intros table. rewrite length_filter_sum.
  unfold table_hits.
  destruct (selected exclusions table) as [[name cols]|] eqn:Hsel.
  - rewrite hits_visited. apply sum_list_with_ext. intros column.
    rewrite (excluded_hit _ _ _ Hne), Hsel.
    pose proof (column_hit_le cols column).
    case_decide as Hd.
    + apply bool_decide_eq_true in Hd. lia.
    + rewrite bool_decide_eq_true in Hd. lia.
  - rewrite (sum_list_with_ext _ (λ _, 0%nat)); [by induction (columns table)|].
    intros column. by rewrite (excluded_hit _ _ _ Hne), Hsel.
Qed.

(** *** A second pass *)

Lemma col_name_of_set d v :
  col_name_of (dict_set d "Enabled" v) = col_name_of d.
Proof. unfold col_name_of. by rewrite dict_get_set_ne. Qed.

Lemma disable_column_idem cols column :
  disable_column cols (disable_column cols column) = disable_column cols column.
Proof.
  destruct column as [| | | | | |d]; try done. simpl.
  destruct (list_in cols (col_name_of d)) eqn:E; simpl.
  - by rewrite col_name_of_set, E, dict_set_set.
  - by rewrite E.
Qed.

Lemma column_hit_disable cols column :
  column_hit cols (disable_column cols column) = column_hit cols column.
Proof.
  destruct column as [| | | | | |d]; try done. simpl.
  destruct (list_in cols (col_name_of d)) eqn:E; simpl.
  - by rewrite col_name_of_set, E.
  - by rewrite E.
Qed.

Lemma is_dict_disable_column cols column :
  is_dict (disable_column cols column) = is_dict column.
Proof.
  destruct column as [| | | | | |d]; try done. simpl.
  by destruct (list_in cols (col_name_of d)).
Qed.

Lemma selected_update problematic table items :
  selected problematic (update_elements table "Columns" items) =
    selected problematic table.
Proof.
  unfold update_elements. destruct table as [| | | | | |d]; try done.
  destruct (dict_get d "Columns") as [[]|]; try done.
  simpl. unfold table_name_of. by rewrite dict_get_set_ne.
Qed.

Lemma selected_disable_table problematic table :
  selected problematic (disable_table problematic table) =
    selected problematic table.
Proof.
  unfold disable_table.
  destruct (selected problematic table) as [[name cols]|] eqn:E; [|done].
  by rewrite selected_update.
Qed.

Lemma field_update_eq o k items items' :
  field o k = Some (JArr items) →
  field (update_elements o k items') k = Some (JArr items').
Proof.
  unfold update_elements. destruct o as [| | | | | |d]; try done. simpl.
  intros ->. simpl. by rewrite dict_get_set_eq.
Qed.

Lemma visited_disable_table problematic table name cols :
  selected problematic table = Some (name, cols) →
  visited (disable_table problematic table) =
    disable_column cols <$> visited table.
Proof.
  intros Hsel. unfold disable_table. rewrite Hsel.
  destruct (visited_cases table) as [(items & Hf & Hv)|(_ & Hno & Hid)].
  - rewrite Hv. eapply visited_array, field_update_eq, Hf.
  - rewrite Hid. symmetry.
    apply no_dict_fmap; auto using disable_column_no_dict.
Qed.

Lemma disable_table_idem problematic table :
  disable_table problematic (disable_table problematic table) =
    disable_table problematic table.
Proof.
  unfold disable_table at 1. rewrite selected_disable_table.
  destruct (selected problematic table) as [[name cols]|] eqn:Hsel; [|done].
  rewrite (visited_disable_table _ _ _ _ Hsel).
  unfold disable_table. rewrite Hsel, update_update.
  f_equal. rewrite <- list_fmap_compose. apply list_fmap_ext.
  intros _ x _. apply disable_column_idem.
Qed.

Lemma table_hits_disable problematic table :
  table_hits problematic (disable_table problematic table) =
    table_hits problematic table.
Proof.
  unfold table_hits. rewrite selected_disable_table.
  destruct (selected problematic table) as [[name cols]|] eqn:Hsel; [|done].
  rewrite (visited_disable_table _ _ _ _ Hsel).
  induction (visited table) as [|x xs IH]; [done|].
  rewrite fmap_cons. simpl. by rewrite column_hit_disable, IH.
Qed.


Lemma forallb_is_dict_disable cols items :
  forallb is_dict (disable_column cols <$> items) = forallb is_dict items.
Proof.
  induction items as [|x xs IH]; [done|].
  rewrite fmap_cons. simpl. by rewrite is_dict_disable_column, IH.
Qed.

Lemma table_ok_disable problematic table :
  table_ok problematic table = true →
  table_ok problematic (disable_table problematic table) = true.
Proof.
  intros Hok.
  destruct (selected problematic table) as [[name cols]|] eqn:Hsel;
    [|unfold disable_table; by rewrite Hsel].
  pose proof (visited_disable_table _ _ _ _ Hsel) as Hv.
  pose proof (selected_disable_table problematic table) as Hsel'.
  rewrite Hsel in Hsel'.
  destruct (disable_table problematic table) as [| | | | | |d'] eqn:Ed;
    try done.
  destruct table as [| | | | | |d]; try done.
  unfold table_ok in *. simpl in Hsel, Hsel'.
  destruct (table_name_of d') as [| | | |s'| |]; try done.
  destruct (table_name_of d) as [| | | |s| |]; try done.
  destruct (problematic !! s') as [cols'|] eqn:Es'; [|done].
  destruct (problematic !! s) as [cols0|] eqn:Es; [|done].
  simpl in Hsel, Hsel'. injection Hsel as <- <-. injection Hsel' as -> <-.
  unfold visited in Hv.
  destruct (elements (columns_of d)) as [items|] eqn:Ei; [|done].
  simpl in Hv.
  unfold disable_table in Ed. simpl in Ed. unfold table_name_of in Ed.
  destruct (elements (columns_of d')) as [items'|] eqn:Ei'; simpl in Hv.
  - subst items'. by rewrite forallb_is_dict_disable.
  - exfalso. clear -Ei Ei' Ed.
    destruct (default (JStr "") (dict_get d "TableName")) as [| | | |s| |];
      try (by injection Ed as <-; rewrite Ei in Ei').
    simpl in Ed. destruct (problematic !! s); simpl in Ed;
      [|by injection Ed as <-; rewrite Ei in Ei'].
    unfold update_elements in Ed. unfold columns_of in *.
    destruct (dict_get d "Columns") as [[]|] eqn:Ec;
      try (by injection Ed as <-; rewrite Ec, Ei in Ei').
    injection Ed as <-. by rewrite dict_get_set_eq in Ei'.
Qed.

Lemma visited_tables_disable problematic config :
  visited_tables (disable_config problematic config) =
    disable_table problematic <$> visited_tables config.
Proof.
  unfold disable_config.
  destruct (visited_tables_cases config) as [(items & Hf & Hv)|(_ & Hno & Hid)].
  - rewrite Hv. eapply visited_tables_array, field_update_eq, Hf.
  - rewrite Hid. symmetry.
    apply no_dict_fmap; auto using disable_table_no_dict.
Qed.

Lemma disable_config_idem problematic config :
  disable_config problematic (disable_config problematic config) =
    disable_config problematic config.
Proof.
  unfold disable_config at 1. rewrite visited_tables_disable.
  unfold disable_config. rewrite update_update.
  f_equal. rewrite <- list_fmap_compose. apply list_fmap_ext.
  intros _ x _. apply disable_table_idem.
Qed.

Lemma config_hits_disable problematic config :
  config_hits problematic (disable_config problematic config) =
    config_hits problematic config.
Proof.
  unfold config_hits. rewrite visited_tables_disable.
  induction (visited_tables config) as [|x xs IH]; [done|].
  rewrite fmap_cons. simpl. by rewrite table_hits_disable, IH.
Qed.

Lemma config_ok_visited problematic config :
  config_ok problematic config = true →
  is_dict config = true
  ∧ forallb (table_ok problematic) (visited_tables config) = true.
Proof.
  destruct config as [| | | | | |d]; try done. simpl.
  by destruct (elements _).
Qed.

Lemma is_dict_update o k items :
  is_dict (update_elements o k items) = is_dict o.
Proof.
  unfold update_elements. destruct o as [| | | | | |d]; try done.
  by destruct (dict_get d k) as [[]|].
Qed.

Lemma config_ok_disable problematic config :
  config_ok problematic config = true →
  config_ok problematic (disable_config problematic config) = true.
Proof.
  intros Hok. destruct (config_ok_visited _ _ Hok) as [Hd Hall].
  pose proof (visited_tables_disable problematic config) as Hv.
  assert (is_dict (disable_config problematic config) = true) as Hd'
    by (unfold disable_config; by rewrite is_dict_update).
  destruct (disable_config problematic config) as [| | | | | |d'] eqn:Ed;
    try done.
  destruct (visited_tables_cases config) as [(items & Hf & Hvi)|(_ & _ & Hid)].
  - unfold disable_config in Ed.
    pose proof (field_update_eq _ _ _
      (disable_table problematic <$> visited_tables config) Hf) as Hf'.
    rewrite Ed in Hf'. simpl in Hf'. simpl. rewrite Hf'. simpl.
    clear -Hall. induction (visited_tables config) as [|x xs IH]; [done|].
    rewrite fmap_cons. simpl in *. apply andb_prop in Hall as [Hx Hxs].
    by rewrite table_ok_disable, IH.
  - unfold disable_config in Ed. rewrite Hid in Ed. by rewrite <- Ed.
Qed.

(** *** What the loops leave alone *)

Lemma erase_column_disable cols column :
  erase_column (disable_column cols column) = erase_column column.
Proof.
  destruct column as [| | | | | |d]; try done. simpl.
  destruct (list_in cols (col_name_of d)); [|done].
  simpl. by rewrite dict_without_set.
Qed.

Lemma erase_table_disable problematic table :
  erase_table (disable_table problematic table) = erase_table table.
Proof.
  unfold erase_table. rewrite columns_disable_table. unfold disable_table.
  destruct (selected problematic table) as [[name cols]|]; [|done].
  rewrite update_update. f_equal.
  rewrite <- list_fmap_compose. apply list_fmap_ext.
  intros _ x _. apply erase_column_disable.
Qed.

Lemma erase_config_disable problematic config :
  erase_config (disable_config problematic config) = erase_config config.
Proof.
  unfold erase_config. rewrite tables_disable_config. unfold disable_config.
  rewrite update_update. f_equal.
  rewrite <- list_fmap_compose. apply list_fmap_ext.
  intros _ x _. apply erase_table_disable.
Qed.

(** *** Documents of the specified shape *)

Lemma column_conforms_dict column :
  column_conforms column = true → is_dict column = true.
Proof. unfold column_conforms. intros H. by repeat apply andb_prop in H as [H _]. Qed.

Lemma table_conforms_ok problematic table :
  table_conforms table = true → table_ok problematic table = true.
Proof.
  unfold table_conforms. intros H.
  apply andb_prop in H as [H Hcols]. apply andb_prop in H as [Hd Hname].
  destruct table as [| | | | | |d]; try done.
  unfold field_is in *. simpl in *. unfold table_name_of, columns_of.
  destruct (dict_get d "TableName") as [[| | | |s| |]|]; simpl; try done.
  - destruct (problematic !! s); [|done].
    destruct (dict_get d "Columns") as [[| | | | |items|]|]; simpl; try done.
    simpl in Hcols. clear -Hcols. induction items as [|x xs IH]; [done|].
    simpl in *. apply andb_prop in Hcols as [Hx Hxs].
    by rewrite column_conforms_dict, IH.
  - destruct (problematic !! ""); [|done].
    destruct (dict_get d "Columns") as [[| | | | |items|]|]; simpl; try done.
    simpl in Hcols. clear -Hcols. induction items as [|x xs IH]; [done|].
    simpl in *. apply andb_prop in Hcols as [Hx Hxs].
    by rewrite column_conforms_dict, IH.
Qed.

Lemma conforms_ok problematic config :
  conforms config = true → config_ok problematic config = true.
Proof.
  unfold conforms. intros H. apply andb_prop in H as [Hd Htables].
  destruct config as [| | | | | |d]; try done.
  unfold field_is in *. simpl in *.
  destruct (dict_get d "Tables") as [[| | | | |items|]|]; simpl; try done.
  simpl in Htables. clear -Htables. induction items as [|x xs IH]; [done|].
  simpl in *. apply andb_prop in Htables as [Hx Hxs].
  by rewrite table_conforms_ok, IH.
Qed.

Example sample_run :
  fix_config sample_load sample_dump "config.json" sample_world =
    (sample_world_after, inr 2).
Proof. vm_compute. reflexivity. Qed.

(** A second run counts the same columns and rewrites the same text. *)
Example sample_rerun :
  fix_config sample_load sample_dump "config.json" sample_world_after =
    (World (fs sample_world_after)
           (stdout sample_world_after
            ++ ["Disabled Sales.SalesOrderDetail.SalesOrderDetailID";
                "Disabled Sales.SalesPerson.SalesLastYear";
                "Fixed 2 problematic columns"])
           PROBLEMATIC_COLUMNS,
     inr 2).
Proof. vm_compute. reflexivity. Qed.

(** A document that is not an object, and a table that is not one, make
    the run raise before anything is written. *)
Example sample_not_an_object :
  disable_columns (JArr []) sample_world = (sample_world, inl AttributeError)
  ∧ disable_columns (JObj [("Tables", JArr [JStr "Sales.SalesPerson"])])
      sample_world = (sample_world, inl AttributeError)
  ∧ disable_columns (JObj [("Tables", JNull)]) sample_world
    = (sample_world, inl TypeError).
Proof. repeat split. Qed.

(** ** Entries by position *)

Lemma lookup_patched problematic config i j table column :
  tables config !! i = Some table → columns table !! j = Some column →
  tables (disable_config problematic config) !! i =
    Some (disable_table problematic table)
  ∧ columns (disable_table problematic table) !! j =
      Some (match selected problematic table with
            | Some (_, cols) => disable_column cols column
            | None => column
            end).
Proof.
  intros Ht Hc. rewrite tables_disable_config, list_lookup_fmap, Ht.
  split; [done|]. rewrite columns_disable_table.
  destruct (selected problematic table) as [[name cols]|]; [|done].
  by rewrite list_lookup_fmap, Hc.
Qed.

Lemma lookup_patched_inv problematic config i j table' column' :
  tables (disable_config problematic config) !! i = Some table' →
  columns table' !! j = Some column' →
  ∃ table column,
    tables config !! i = Some table ∧ columns table !! j = Some column
    ∧ table' = disable_table problematic table
    ∧ column' = match selected problematic table with
                | Some (_, cols) => disable_column cols column
                | None => column
                end.
Proof.
  rewrite tables_disable_config, list_lookup_fmap.
  destruct (tables config !! i) as [table|] eqn:Ht; [|done].
  intros [= <-]. rewrite columns_disable_table.
  destruct (selected problematic table) as [[name cols]|] eqn:Hsel.
  - rewrite list_lookup_fmap.
    destruct (columns table !! j) as [column|] eqn:Hc; [|done].
    simpl. intros [= <-]. exists table, column. by rewrite Hsel.
  - intros Hc. exists table, column'. by rewrite Hsel.
Qed.

Section Claims.

Variable json_load : string → option json.
Variable json_dump : json → string.

(** C1, completeness: when [fix_config] returns, every column that the
    exclusion map names (a Column entry, named in the list of a key that
    is the name of its Table entry) has ["Enabled"] equal to false in
    the document the run held in memory and wrote back to the file. *)
Theorem fix_config_completeness path w w' n config :
  globals w = PROBLEMATIC_COLUMNS →
  loaded json_load w path config →
  fix_config json_load json_dump path w = (w', inr n) →
  ∃ config',
    (∃ w1, disable_columns config w = (w1, inr (config', n)))
    ∧ written json_dump w' path config'
    ∧ ∀ i j table column,
        tables config !! i = Some table →
        columns table !! j = Some column →
        excluded PROBLEMATIC_COLUMNS table column = true →
        ∃ table' column',
          tables config' !! i = Some table'
          ∧ columns table' !! j = Some column'
          ∧ field column' "Enabled" = Some (JBool false).
Proof.
  intros Hg Hloaded Hrun.
  destruct (fix_config_returns _ _ _ _ _ _ _ Hloaded Hrun)
    as (Hok & Hwritten & -> & _ & _).
  rewrite Hg in *. exists (disable_config PROBLEMATIC_COLUMNS config).
  split; [|split; [done|]].
  - eexists. rewrite disable_columns_ok; rewrite Hg; [reflexivity|done].
  - intros i j table column Ht Hc Hex.
    destruct (lookup_patched PROBLEMATIC_COLUMNS _ _ _ _ _ Ht Hc) as [Ht' Hc'].
    eexists _, _. split; [exact Ht'|]. split; [exact Hc'|].
    rewrite (excluded_hit _ _ _ PROBLEMATIC_COLUMNS_names_nonempty) in Hex.
    destruct (selected PROBLEMATIC_COLUMNS table) as [[name cols]|]; [|done].
    apply bool_decide_eq_true in Hex.
    destruct (column_hit_cases cols column) as [[_ H]|[H _]]; [done|lia].
Qed.

(** C2, containment: when [fix_config] returns, a column that the
    exclusion map does not name (its table's name is not a key, or its
    own name is not in the list of that key) has the ["Enabled"] value
    it had. *)
Theorem fix_config_containment path w w' n config :
  globals w = PROBLEMATIC_COLUMNS →
  loaded json_load w path config →
  fix_config json_load json_dump path w = (w', inr n) →
  ∃ config',
    written json_dump w' path config'
    ∧ ∀ i j table column,
        tables config !! i = Some table →
        columns table !! j = Some column →
        excluded PROBLEMATIC_COLUMNS table column = false →
        ∃ table' column',
          tables config' !! i = Some table'
          ∧ columns table' !! j = Some column'
          ∧ field column' "Enabled" = field column "Enabled".
Proof.
  intros Hg Hloaded Hrun.
  destruct (fix_config_returns _ _ _ _ _ _ _ Hloaded Hrun)
    as (Hok & Hwritten & -> & _ & _).
  rewrite Hg in *. exists (disable_config PROBLEMATIC_COLUMNS config).
  split; [done|]. intros i j table column Ht Hc Hex.
  destruct (lookup_patched PROBLEMATIC_COLUMNS _ _ _ _ _ Ht Hc) as [Ht' Hc'].
  eexists _, _. split; [exact Ht'|]. split; [exact Hc'|].
  rewrite (excluded_hit _ _ _ PROBLEMATIC_COLUMNS_names_nonempty) in Hex.
  destruct (selected PROBLEMATIC_COLUMNS table) as [[name cols]|]; [|done].
  apply bool_decide_eq_false in Hex.
  destruct (column_hit_cases cols column) as [[H _]|[_ ->]]; done.
Qed.

(** C4, the return value: [fix_config] returns the number of
    (Table entry, Column entry) occurrences of the document that the
    exclusion map names, whatever their ["Enabled"] value was. *)
Theorem fix_config_count path w w' n config :
  globals w = PROBLEMATIC_COLUMNS →
  loaded json_load w path config →
  fix_config json_load json_dump path w = (w', inr n) →
  n = excluded_count PROBLEMATIC_COLUMNS config.
Proof.
  intros Hg Hloaded Hrun.
  destruct (fix_config_returns _ _ _ _ _ _ _ Hloaded Hrun)
    as (_ & _ & -> & _ & _).
  rewrite Hg. symmetry.
  apply excluded_count_hits, PROBLEMATIC_COLUMNS_names_nonempty.
Qed.

(** C10, monotone disabling: when [fix_config] returns, a column whose
    ["Enabled"] is true in the document written back is a column whose
    ["Enabled"] was true in the document read. *)
Theorem fix_config_monotone path w w' n config :
  loaded json_load w path config →
  fix_config json_load json_dump path w = (w', inr n) →
  ∃ config',
    written json_dump w' path config'
    ∧ ∀ i j table' column',
        tables config' !! i = Some table' →
        columns table' !! j = Some column' →
        field column' "Enabled" = Some (JBool true) →
        ∃ table column,
          tables config !! i = Some table
          ∧ columns table !! j = Some column
          ∧ field column "Enabled" = Some (JBool true).
Proof.
  intros Hloaded Hrun.
  destruct (fix_config_returns _ _ _ _ _ _ _ Hloaded Hrun)
    as (Hok & Hwritten & -> & _ & _).
  exists (disable_config (globals w) config).
  split; [done|]. intros i j table' column' Ht' Hc' Hen.
  destruct (lookup_patched_inv _ _ _ _ _ _ Ht' Hc')
    as (table & column & Ht & Hc & -> & ->).
  exists table, column. split; [done|]. split; [done|].
  destruct (selected (globals w) table) as [[name cols]|]; [|done].
  destruct (column_hit_cases cols column) as [[_ H]|[_ H]]; congruence.
Qed.

(** C3, field preservation: when [fix_config] returns, the document
    written back equals the document read once the ["Enabled"] fields
    of the Column entries are left out of both; in particular every
    other field of a Column entry, every field of a Table entry but
    its ["Columns"], and every top-level field but ["Tables"] has
    the value it had, and no entry is added or dropped. *)
Theorem fix_config_field_preservation path w w' n config :
  loaded json_load w path config →
  fix_config json_load json_dump path w = (w', inr n) →
  ∃ config',
    written json_dump w' path config'
    ∧ erase_config config' = erase_config config
    ∧ (∀ k, k ≠ "Tables" → field config' k = field config k)
    ∧ length (tables config') = length (tables config)
    ∧ ∀ i table table',
        tables config !! i = Some table →
        tables config' !! i = Some table' →
        (∀ k, k ≠ "Columns" → field table' k = field table k)
        ∧ length (columns table') = length (columns table)
        ∧ ∀ j column column',
            columns table !! j = Some column →
            columns table' !! j = Some column' →
            ∀ k, k ≠ "Enabled" → field column' k = field column k.
Proof.
  intros Hloaded Hrun.
  destruct (fix_config_returns _ _ _ _ _ _ _ Hloaded Hrun)
    as (Hok & Hwritten & -> & _ & _).
  exists (disable_config (globals w) config).
  split; [done|]. split; [apply erase_config_disable|].
  split; [intros k Hk; by apply field_update_ne|].
  split; [by rewrite tables_disable_config, length_fmap|].
  intros i table table' Ht. rewrite tables_disable_config, list_lookup_fmap, Ht.
  intros [= <-].
  split; [intros k Hk; by apply field_disable_table|].
  rewrite columns_disable_table.
  destruct (selected (globals w) table) as [[name cols]|].
  - split; [by rewrite length_fmap|].
    intros j column column' Hc. rewrite list_lookup_fmap, Hc.
    intros [= <-] k Hk. by apply field_disable_column.
  - split; [done|]. intros j column column' Hc. rewrite Hc. by intros [= <-].
Qed.

(** A run that raises leaves every file as it was. *)
Lemma fix_config_raise_keeps_files path w w' e :
  fix_config json_load json_dump path w = (w', inl e) → fs w' = fs w.
Proof.
  unfold fix_config. rewrite bind_run. unfold open_read.
  destruct (fs w !! path) as [f|] eqn:Hf; [|by intros [= <- _]].
  destruct (readable f); [|by intros [= <- _]].
  rewrite bind_run. unfold loads.
  destruct (json_load (content f)) as [config|]; [|by intros [= <- _]].
  rewrite ret_run, bind_run.
  destruct (disable_columns config w) as [w1 [e1|[config' k]]] eqn:Hrun;
    destruct (keeps_disable_columns _ _ _ _ Hrun) as [Hfs _].
  - by intros [= <- _].
  - rewrite bind_run. unfold open_write. rewrite Hfs, Hf.
    destruct (writable f); [discriminate|]. by intros [= <- _].
Qed.

(** C5, errors before any write: a missing or unreadable file makes
    [fix_config] raise an [IOError], and a text that [json.load] rejects
    makes it raise the parse error; in both cases nothing was written
    or printed: the world is the one the run started in. *)
Theorem fix_config_read_errors path w :
  (fs w !! path = None →
   ∃ e, is_IOError e = true
        ∧ fix_config json_load json_dump path w = (w, inl e))
  ∧ (∀ f, fs w !! path = Some f → readable f = false →
     ∃ e, is_IOError e = true
          ∧ fix_config json_load json_dump path w = (w, inl e))
  ∧ (∀ f, fs w !! path = Some f → readable f = true →
     json_load (content f) = None →
     ∃ e, is_ParseError e = true
          ∧ fix_config json_load json_dump path w = (w, inl e)).
Proof.
  unfold fix_config. rewrite bind_run. unfold open_read.
  split; [|split].
  - intros ->. by exists FileNotFoundError.
  - intros f -> ->. by exists PermissionError.
  - intros f -> -> Hload. rewrite bind_run. unfold loads. rewrite Hload.
    by exists JSONDecodeError.
Qed.

(** A second pass over the document a pass returned: it returns, with the
    same document and the same count. *)
Lemma disable_columns_again config w w1 config' n :
  disable_columns config w = (w1, inr (config', n)) →
  ∃ w2, disable_columns config' w1 = (w2, inr (config', n)).
Proof.
  intros Hrun.
  apply disable_columns_returns in Hrun as (Hok & -> & -> & ->).
  eexists. rewrite disable_columns_ok by (by apply config_ok_disable).
  simpl. by rewrite disable_config_idem, config_hits_disable.
Qed.

(** C6, idempotence: on a document of the specified shape the loops
    return, and run again on the document they returned, they return
    that same document, with the same count. *)
Theorem disable_columns_idempotent config w :
  conforms config = true →
  ∃ w1 w2 config' n,
    disable_columns config w = (w1, inr (config', n))
    ∧ disable_columns config' w1 = (w2, inr (config', n)).
Proof.
  intros Hconf. pose proof (conforms_ok (globals w) _ Hconf) as Hok.
  pose proof (disable_columns_ok _ _ Hok) as Hrun.
  destruct (disable_columns_again _ _ _ _ _ Hrun) as [w2 Hagain].
  eexists _, w2, _, _. split; [exact Hrun|exact Hagain].
Qed.

(** The same on the file: when the file the first run wrote loads as
    the document that run held, a second run returns the same count and
    leaves the file system as the first run left it. *)
Lemma fix_config_twice path w w1 n config :
  loaded json_load w path config →
  fix_config json_load json_dump path w = (w1, inr n) →
  loaded json_load w1 path (disable_config (globals w) config) →
  ∃ w2, fix_config json_load json_dump path w1 = (w2, inr n)
        ∧ fs w2 = fs w1.
Proof.
  intros Hloaded Hrun Hback.
  destruct (fix_config_inv _ _ _ _ _ _ Hrun)
    as (f & config0 & Hf & Hr & Hw & Hl & Hok).
  assert (config0 = config) as ->
    by (eapply loaded_inj; [by eapply file_loaded|done]).
  rewrite (fix_config_ok _ _ _ _ _ _ Hf Hr Hw Hl Hok) in Hrun.
  injection Hrun as <- <-.
  destruct (loaded_file _ _ _ _ Hback) as (f1 & Hf1 & Hr1 & Hl1).
  simpl in Hf1. rewrite lookup_insert_eq in Hf1. injection Hf1 as <-.
  eexists. split.
  - erewrite fix_config_ok; simpl;
      [|apply lookup_insert_eq|done|done|exact Hl1|by apply config_ok_disable].
    by rewrite config_hits_disable.
  - simpl. by rewrite disable_config_idem, insert_insert_eq.
Qed.

(** C7, missing fields: on a document without ["Tables"] (and a file
    that may be written) [fix_config] returns 0, writes the document it
    read and prints the summary only; and the body of the outer loop, on
    a table that the exclusion map selects and that has no ["Columns"],
    returns the table and the counter as they were, printing nothing. *)
Theorem fix_config_missing_fields :
  (∀ path w f d,
     fs w !! path = Some f → readable f = true → writable f = true →
     json_load (content f) = Some (JObj d) →
     field (JObj d) "Tables" = None →
     fix_config json_load json_dump path w =
       (World (<[path := File true true (json_dump (JObj d))]> (fs w))
              (stdout w ++ ["Fixed 0 problematic columns"])
              (globals w),
        inr 0))
  ∧ (∀ d name n w,
       field (JObj d) "TableName" = Some (JStr name) →
       is_Some (globals w !! name) →
       field (JObj d) "Columns" = None →
       table_body (JObj d) n w = (w, inr (JObj d, n))).
Proof.
  split.
  - intros path w f d Hf Hr Hw Hl Hnone. simpl in Hnone.
    assert (config_ok (globals w) (JObj d) = true) as Hok
      by (simpl; by rewrite Hnone).
    rewrite (fix_config_ok _ _ _ _ _ _ Hf Hr Hw Hl Hok).
    unfold disable_config, config_notices, config_hits, visited_tables,
      update_elements.
    rewrite Hnone. simpl. by rewrite app_nil_r.
  - intros d name n w Hname [cols Hcols] Hnone. simpl in Hname, Hnone.
    assert (table_ok (globals w) (JObj d) = true) as Hok.
    { unfold table_ok, table_name_of, columns_of.
      by rewrite Hname, Hnone; simpl; rewrite Hcols. }
    rewrite (table_body_ok _ _ _ Hok).
    unfold table_notices, disable_table, table_hits, selected, visited,
      table_name_of, columns_of, update_elements.
    rewrite Hname, Hnone. simpl. rewrite Hcols. simpl.
    by rewrite world_eta, Z.add_0_r.
Qed.

Lemma keeps_fix_config path :
  ∀ w w' r, fix_config json_load json_dump path w = (w', r) →
            globals w' = globals w.
Proof.
  intros w w' r. unfold fix_config. rewrite bind_run. unfold open_read.
  destruct (fs w !! path) as [f|] eqn:Hf; [|by intros [= <- _]].
  destruct (readable f); [|by intros [= <- _]].
  rewrite bind_run. unfold loads.
  destruct (json_load (content f)) as [config|]; [|by intros [= <- _]].
  rewrite ret_run, bind_run.
  destruct (disable_columns config w) as [w1 [e1|[config' k]]] eqn:Hrun;
    destruct (keeps_disable_columns _ _ _ _ Hrun) as [Hfs Hg].
  - by intros [= <- _].
  - rewrite bind_run. unfold open_write. rewrite Hfs, Hf.
    destruct (writable f); run; by intros [= <- _].
Qed.

(** C8, the exclusion map: the module global holds 14 keys with the
    lists of the source, a run of [fix_config] ends with the global it
    started with, and a run of the script ends with the global the
    module body assigned. *)
Theorem PROBLEMATIC_COLUMNS_constant :
  size PROBLEMATIC_COLUMNS = 14%nat
  ∧ PROBLEMATIC_COLUMNS !! "Production.WorkOrderRouting" = Some ["LocationID"]
  ∧ PROBLEMATIC_COLUMNS !! "Production.ProductModel"
    = Some ["CatalogDescription"]
  ∧ PROBLEMATIC_COLUMNS !! "Purchasing.ProductVendor"
    = Some ["LastReceiptCost"; "LastReceiptDate"]
  ∧ PROBLEMATIC_COLUMNS !! "Person.StateProvince"
    = Some ["StateProvinceID"; "IsOnlyStateProvinceFlag"]
  ∧ PROBLEMATIC_COLUMNS !! "Sales.SalesOrderDetail"
    = Some ["SalesOrderDetailID"]
  ∧ PROBLEMATIC_COLUMNS !! "Production.ProductInventory" = Some ["LocationID"]
  ∧ PROBLEMATIC_COLUMNS !! "Production.ProductDescription"
    = Some ["ProductDescriptionID"]
  ∧ PROBLEMATIC_COLUMNS !! "Production.ProductModelProductDescriptionCulture"
    = Some ["ProductDescriptionID"]
  ∧ PROBLEMATIC_COLUMNS !! "Purchasing.PurchaseOrderDetail"
    = Some ["PurchaseOrderDetailID"]
  ∧ PROBLEMATIC_COLUMNS !! "Sales.SalesPerson" = Some ["SalesLastYear"]
  ∧ PROBLEMATIC_COLUMNS !! "Sales.SalesTerritory"
    = Some ["SalesLastYear"; "CostLastYear"]
  ∧ PROBLEMATIC_COLUMNS !! "Purchasing.ShipMethod"
    = Some ["ShipMethodID"; "ShipBase"; "ShipRate"]
  ∧ PROBLEMATIC_COLUMNS !! "Purchasing.PurchaseOrderHeader"
    = Some ["ShipMethodID"; "ShipDate"]
  ∧ PROBLEMATIC_COLUMNS !! "Sales.SalesOrderHeader"
    = Some ["ShipDate"; "ShipMethodID"]
  ∧ (∀ path w w' r,
       fix_config json_load json_dump path w = (w', r) →
       globals w' = globals w)
  ∧ (∀ argv w w' r,
       main json_load json_dump argv w = (w', r) →
       globals w' = PROBLEMATIC_COLUMNS).
Proof.
  repeat (split; [by vm_compute|]). split.
  - apply keeps_fix_config.
  - intros argv w w' r. unfold main. rewrite bind_run. unfold set_global.
    cbv beta iota zeta. rewrite bind_run.
    match goal with
    | |- context [fix_config _ _ ?p ?w0] =>
        destruct (fix_config json_load json_dump p w0) as [w1 [e|k]] eqn:Hrun
    end; apply keeps_fix_config in Hrun; simpl in Hrun.
    + by intros [= <- _].
    + by intros [= <- _].
Qed.

(** C9, missing names: with the module global as the module body
    leaves it, the body of the outer loop on a table without
    ["TableName"], and the body of the inner loop on a column without
    ["ColumnName"], return the entry and the counter as they were and
    print nothing; the empty string that stands for the missing name is
    no key of the map and is in none of its lists. *)
Theorem missing_name_tolerance w :
  globals w = PROBLEMATIC_COLUMNS →
  (∀ d n, field (JObj d) "TableName" = None →
          table_body (JObj d) n w = (w, inr (JObj d, n)))
  ∧ (∀ name cols d n,
       PROBLEMATIC_COLUMNS !! name = Some cols →
       field (JObj d) "ColumnName" = None →
       column_body name cols (JObj d) n w = (w, inr (JObj d, n)))
  ∧ PROBLEMATIC_COLUMNS !! "" = None
  ∧ (∀ name cols, PROBLEMATIC_COLUMNS !! name = Some cols → "" ∉ cols).
Proof.
  intros Hg. destruct PROBLEMATIC_COLUMNS_names_nonempty as [Hkey Hcols].
  destruct w as [files out g]. simpl in Hg. subst g.
  split; [|split; [|split; [done|exact Hcols]]].
  - intros d n Hnone. simpl in Hnone.
    rewrite table_body_ok; simpl; unfold table_ok, table_notices,
      disable_table, table_hits, selected, table_name_of;
      rewrite Hnone; simpl; rewrite Hkey; [|done].
    simpl. by rewrite app_nil_r, Z.add_0_r.
  - intros name cols d n Hname Hnone. simpl in Hnone.
    rewrite column_body_ok by done.
    unfold column_notice, disable_column, column_hit, col_name_of.
    rewrite Hnone. simpl. rewrite decide_False by (by apply (Hcols name)).
    by rewrite app_nil_r, Z.add_0_r.
Qed.

End Claims.

(** ** The sample run, through the theorems *)

Lemma fix_config_completeness_witness :
  ∃ config',
    (∃ w1, disable_columns sample_config sample_world = (w1, inr (config', 2)))
    ∧ written sample_dump sample_world_after "config.json" config'
    ∧ ∀ i j table column,
        tables sample_config !! i = Some table →
        columns table !! j = Some column →
        excluded PROBLEMATIC_COLUMNS table column = true →
        ∃ table' column',
          tables config' !! i = Some table'
          ∧ columns table' !! j = Some column'
          ∧ field column' "Enabled" = Some (JBool false).
Proof.
  apply (fix_config_completeness sample_load sample_dump "config.json"
           sample_world sample_world_after 2 sample_config).
  - reflexivity.
  - vm_compute. reflexivity.
  - vm_compute. reflexivity.
Defined.

Lemma fix_config_containment_witness :
  ∃ config',
    written sample_dump sample_world_after "config.json" config'
    ∧ ∀ i j table column,
        tables sample_config !! i = Some table →
        columns table !! j = Some column →
        excluded PROBLEMATIC_COLUMNS table column = false →
        ∃ table' column',
          tables config' !! i = Some table'
          ∧ columns table' !! j = Some column'
          ∧ field column' "Enabled" = field column "Enabled".
Proof.
  apply (fix_config_containment sample_load sample_dump "config.json"
           sample_world sample_world_after 2 sample_config).
  - reflexivity.
  - vm_compute. reflexivity.
  - vm_compute. reflexivity.
Defined.

Lemma fix_config_field_preservation_witness :
  ∃ config',
    written sample_dump sample_world_after "config.json" config'
    ∧ erase_config config' = erase_config sample_config
    ∧ (∀ k, k ≠ "Tables" → field config' k = field sample_config k)
    ∧ length (tables config') = length (tables sample_config)
    ∧ ∀ i table table',
        tables sample_config !! i = Some table →
        tables config' !! i = Some table' →
        (∀ k, k ≠ "Columns" → field table' k = field table k)
        ∧ length (columns table') = length (columns table)
        ∧ ∀ j column column',
            columns table !! j = Some column →
            columns table' !! j = Some column' →
            ∀ k, k ≠ "Enabled" → field column' k = field column k.
Proof.
  apply (fix_config_field_preservation sample_load sample_dump "config.json"
           sample_world sample_world_after 2 sample_config).
  - vm_compute. reflexivity.
  - vm_compute. reflexivity.
Defined.

Lemma fix_config_count_witness :
  2 = excluded_count PROBLEMATIC_COLUMNS sample_config.
Proof.
  apply (fix_config_count sample_load sample_dump "config.json"
           sample_world sample_world_after 2 sample_config).
  - reflexivity.
  - vm_compute. reflexivity.
  - vm_compute. reflexivity.
Defined.

Lemma fix_config_read_errors_witness :
  (∃ e, is_IOError e = true
        ∧ fix_config sample_load sample_dump "absent.json" sample_world
          = (sample_world, inl e))
  ∧ (∃ e, is_IOError e = true
          ∧ fix_config sample_load sample_dump "secret.json" sample_world
            = (sample_world, inl e))
  ∧ (∃ e, is_ParseError e = true
          ∧ fix_config sample_load sample_dump "broken.json" sample_world
            = (sample_world, inl e)).
Proof.
  split; [|split].
  - apply (proj1 (fix_config_read_errors sample_load sample_dump
                    "absent.json" sample_world)).
    vm_compute. reflexivity.
  - apply (proj1 (proj2 (fix_config_read_errors sample_load sample_dump
                           "secret.json" sample_world))
             (File false false (sample_dump sample_config))).
    + vm_compute. reflexivity.
    + reflexivity.
  - apply (proj2 (proj2 (fix_config_read_errors sample_load sample_dump
                           "broken.json" sample_world))
             (File true true "{'Tables': [")).
    + vm_compute. reflexivity.
    + reflexivity.
    + vm_compute. reflexivity.
Defined.

Lemma disable_columns_idempotent_witness :
  ∃ w1 w2 config' n,
    disable_columns sample_config sample_world = (w1, inr (config', n))
    ∧ disable_columns config' w1 = (w2, inr (config', n)).
Proof.
  apply (disable_columns_idempotent sample_config sample_world).
  vm_compute. reflexivity.
Defined.

Lemma fix_config_missing_fields_witness :
  fix_config sample_load sample_dump "bare.json" sample_world =
    (World (<["bare.json" := File true true (sample_dump (JObj sample_bare))]>
              sample_fs)
           ["Fixed 0 problematic columns"] PROBLEMATIC_COLUMNS,
     inr 0)
  ∧ table_body (JObj sample_no_columns) 0 sample_world =
      (sample_world, inr (JObj sample_no_columns, 0)).
Proof.
  split.
  - apply (proj1 (fix_config_missing_fields sample_load sample_dump)
             "bare.json" sample_world
             (File true true (sample_dump (JObj sample_bare))) sample_bare).
    + vm_compute. reflexivity.
    + reflexivity.
    + reflexivity.
    + vm_compute. reflexivity.
    + reflexivity.
  - apply (proj2 (fix_config_missing_fields sample_load sample_dump)
             sample_no_columns "Purchasing.ShipMethod" 0 sample_world).
    + reflexivity.
    + exists ["ShipMethodID"; "ShipBase"; "ShipRate"]. vm_compute. reflexivity.
    + reflexivity.
Defined.

Lemma PROBLEMATIC_COLUMNS_constant_witness :
  globals sample_world_after = globals sample_world
  ∧ globals (main sample_load sample_dump ["fix_config.py"; "config.json"]
               (World sample_fs [] ∅)).1 = PROBLEMATIC_COLUMNS.
Proof.
  destruct (PROBLEMATIC_COLUMNS_constant sample_load sample_dump)
    as (_ & _ & _ & _ & _ & _ & _ & _ & _ & _ & _ & _ & _ & _ & _ & Hfix & Hmain).
  split.
  - apply (Hfix "config.json" sample_world sample_world_after (inr 2)).
    vm_compute. reflexivity.
  - apply (Hmain ["fix_config.py"; "config.json"] (World sample_fs [] ∅) _
             (main sample_load sample_dump ["fix_config.py"; "config.json"]
                (World sample_fs [] ∅)).2).
    apply surjective_pairing.
Defined.

Lemma missing_name_tolerance_witness :
  (∀ d n, field (JObj d) "TableName" = None →
          table_body (JObj d) n sample_world = (sample_world, inr (JObj d, n)))
  ∧ (∀ name cols d n,
       PROBLEMATIC_COLUMNS !! name = Some cols →
       field (JObj d) "ColumnName" = None →
       column_body name cols (JObj d) n sample_world
       = (sample_world, inr (JObj d, n)))
  ∧ PROBLEMATIC_COLUMNS !! "" = None
  ∧ (∀ name cols, PROBLEMATIC_COLUMNS !! name = Some cols → "" ∉ cols).
Proof. apply (missing_name_tolerance sample_world). reflexivity. Defined.

Lemma fix_config_monotone_witness :
  ∃ config',
    written sample_dump sample_world_after "config.json" config'
    ∧ ∀ i j table' column',
        tables config' !! i = Some table' →
        columns table' !! j = Some column' →
        field column' "Enabled" = Some (JBool true) →
        ∃ table column,
          tables sample_config !! i = Some table
          ∧ columns table !! j = Some column
          ∧ field column "Enabled" = Some (JBool true).
Proof.
  apply (fix_config_monotone sample_load sample_dump "config.json"
           sample_world sample_world_after 2 sample_config).
  - vm_compute. reflexivity.
  - vm_compute. reflexivity.
Defined.

(** ** The printed notices *)

Lemma list_bind_ext_all {A B} (f g : A → list B) (l : list A) :
  (∀ x, f x = g x) → l ≫= f = l ≫= g.
Proof.
  intros Hfg. induction l as [|x xs IH]; [done|].
  rewrite !bind_cons. by rewrite Hfg, IH.
Qed.

Lemma list_bind_nil_all {A B} (f : A → list B) (l : list A) :
  Forall (λ x, f x = []) l → l ≫= f = [].
Proof.
  induction 1 as [|x xs Hx _ IH]; [done|]. rewrite bind_cons. by rewrite Hx, IH.
Qed.

Lemma length_bind_sum {A B} (f : A → list B) (l : list A) :
  length (l ≫= f) = sum_list_with (λ x, length (f x)) l.
Proof.
  induction l as [|x xs IH]; [done|].
  rewrite bind_cons, length_app. simpl. by rewrite IH.
Qed.

Lemma column_notice_no_dict name cols x :
  is_dict x = false → column_notice name cols x = [].
Proof. by destruct x. Qed.

Lemma table_notices_no_dict problematic x :
  is_dict x = false → table_notices problematic x = [].
Proof. intros H. unfold table_notices. by rewrite selected_no_dict. Qed.

Lemma length_column_notice name cols column :
  length (column_notice name cols column) = column_hit cols column.
Proof.
  destruct column; try done. simpl. by destruct (list_in cols (col_name_of _)).
Qed.

Lemma length_table_notices problematic table :
  length (table_notices problematic table) = table_hits problematic table.
Proof.
  unfold table_notices, table_hits.
  destruct (selected problematic table) as [[name cols]|]; [|done].
  rewrite length_bind_sum. apply sum_list_with_ext.
  intros x. apply length_column_notice.
Qed.

Lemma length_config_notices problematic config :
  length (config_notices problematic config) = config_hits problematic config.
Proof.
  unfold config_notices, config_hits. rewrite length_bind_sum.
  apply sum_list_with_ext. intros x. apply length_table_notices.
Qed.

Lemma notices_visited name cols table :
  visited table ≫= column_notice name cols =
    columns table ≫= column_notice name cols.
Proof.
  destruct (visited_cases table) as [(items & Hf & ->)|(-> & Hno & _)].
  - unfold columns, entries. by rewrite Hf.
  - apply list_bind_nil_all.
    eapply Forall_impl; [exact Hno|]. intros x. apply column_notice_no_dict.
Qed.

Lemma notices_visited_tables problematic config :
  config_notices problematic config =
    tables config ≫= table_notices problematic.
Proof.
  unfold config_notices.
  destruct (visited_tables_cases config) as [(items & Hf & ->)|(-> & Hno & _)].
  - unfold tables, entries. by rewrite Hf.
  - apply list_bind_nil_all.
    eapply Forall_impl; [exact Hno|]. intros x. apply table_notices_no_dict.
Qed.

(** Under a map without empty names, a selected table is selected by the
    name it has, and a column that is hit is hit by the name it has. *)
Lemma selected_name exclusions table name cols :
  names_nonempty exclusions →
  selected exclusions table = Some (name, cols) →
  name_at table "TableName" = name.
Proof.
  intros [Hkey _]. destruct table as [| | | | | |d]; try done.
  unfold selected, table_name_of, name_at. simpl.
  destruct (dict_get d "TableName") as [[| | | |s| |]|]; simpl; try done.
  - destruct (exclusions !! s); simpl; [|done]. by intros [= <- _].
  - by rewrite Hkey.
Qed.

Lemma column_notice_excluded exclusions table name cols column :
  names_nonempty exclusions →
  selected exclusions table = Some (name, cols) →
  column_notice name cols column =
    if excluded exclusions table column
    then ["Disabled " +:+ name_at table "TableName" +:+ "."
          +:+ name_at column "ColumnName"]
    else [].
Proof.
  intros Hne Hsel.
  rewrite (excluded_hit _ _ _ Hne), Hsel, (selected_name _ _ _ _ Hne Hsel).
  assert (exclusions !! name = Some cols) as Hcols.
  { destruct table as [| | | | | |d]; try done. simpl in Hsel.
    destruct (table_name_of d); try done. simpl in Hsel.
    destruct (exclusions !! s) eqn:E; simpl in Hsel; [|done].
    by injection Hsel as <- <-. }
  destruct Hne as [_ Hall]. pose proof (Hall _ _ Hcols) as Hempty.
  simpl in Hempty.
  destruct column as [| | | | | |d]; try done.
  unfold column_notice, column_hit, col_name_of, name_at. simpl.
  destruct (dict_get d "ColumnName") as [[| | | |c| |]|]; simpl; try done.
  - by destruct (decide (c ∈ cols)).
  - by rewrite decide_False.
Qed.

Lemma config_notices_disabled exclusions config :
  names_nonempty exclusions →
  config_notices exclusions config = disabled_notices exclusions config.
Proof.
  intros Hne. rewrite notices_visited_tables. unfold disabled_notices.
  apply list_bind_ext_all. intros table. unfold table_notices.
  destruct (selected exclusions table) as [[name cols]|] eqn:Hsel.
  - rewrite notices_visited. apply list_bind_ext_all. intros column.
    by apply column_notice_excluded.
  - symmetry. apply list_bind_nil_all, Forall_forall. intros column _.
    by rewrite (excluded_hit _ _ _ Hne), Hsel.
Qed.

(** ** The order of the keys *)

Lemma dict_keys_set_present (d : dict) k v :
  is_Some (dict_get d k) → dict_keys (dict_set d k v) = dict_keys d.
Proof.
  unfold dict_keys. induction d as [|[k0 v0] d IH]; simpl.
  - by intros [? ?].
  - destruct (String.eqb k0 k) eqn:E; simpl; [done|].
    intros H. f_equal. by apply IH.
Qed.

Lemma dict_keys_set_absent (d : dict) k v :
  dict_get d k = None → dict_keys (dict_set d k v) = (dict_keys d ++ [k])%list.
Proof.
  unfold dict_keys. induction d as [|[k0 v0] d IH]; simpl; [done|].
  destruct (String.eqb k0 k) eqn:E; simpl; [done|].
  intros H. f_equal. by apply IH.
Qed.

Lemma keys_update o k items : keys (update_elements o k items) = keys o.
Proof.
  unfold update_elements. destruct o as [| | | | | |d]; try done.
  destruct (dict_get d k) as [[]|] eqn:E; try done.
  simpl. apply dict_keys_set_present. by rewrite E.
Qed.

Lemma keys_disable_table problematic table :
  keys (disable_table problematic table) = keys table.
Proof.
  unfold disable_table.
  destruct (selected problematic table) as [[name cols]|]; [|done].
  apply keys_update.
Qed.

Lemma keys_disable_column cols column :
  keys (disable_column cols column) = keys column
  ∨ (field column "Enabled" = None
     ∧ keys (disable_column cols column) = (keys column ++ ["Enabled"])%list).
Proof.
  destruct column as [| | | | | |d]; try (by left). simpl.
  destruct (list_in cols (col_name_of d)); [|by left]. simpl.
  destruct (dict_get d "Enabled") as [v|] eqn:E.
  - left. apply dict_keys_set_present. by rewrite E.
  - right. split; [done|]. by apply dict_keys_set_absent.
Qed.

(** ** The script as a whole *)

Section Runs.

#[local] Opaque PROBLEMATIC_COLUMNS.

Variable json_load : string → option json.
Variable json_dump : json → string.

(** The world and the result of a run that returns. *)
Lemma fix_config_returns_world path w w' n config :
  loaded json_load w path config →
  fix_config json_load json_dump path w = (w', inr n) →
  config_ok (globals w) config = true
  ∧ n = Z.of_nat (config_hits (globals w) config)
  ∧ w' = World (<[path := File true true
                            (json_dump (disable_config (globals w) config))]>
                  (fs w))
               ((stdout w ++ config_notices (globals w) config)
                ++ ["Fixed " +:+ pretty n +:+ " problematic columns"])
               (globals w).
Proof.
  intros Hloaded Hrun.
  destruct (fix_config_inv _ _ _ _ _ _ Hrun)
    as (f & config0 & Hf & Hr & Hw & Hl & Hok).
  assert (config0 = config) as ->
    by (eapply loaded_inj; [by eapply file_loaded|done]).
  rewrite (fix_config_ok _ _ _ _ _ _ Hf Hr Hw Hl Hok) in Hrun.
  by injection Hrun as <- <-.
Qed.

(** [main] is [fix_config] on the chosen path, under the module global the
    module body assigns, followed by the closing line. *)
Lemma main_run argv w :
  main json_load json_dump argv w =
    match fix_config json_load json_dump (script_path argv)
            (World (fs w) (stdout w) PROBLEMATIC_COLUMNS) with
    | (w1, inr _) =>
        (World (fs w1)
               (stdout w1 ++ ["Configuration fixed: " +:+ script_path argv])
               (globals w1), inr tt)
    | (w1, inl e) => (w1, inl e)
    end.
Proof.
  unfold main. rewrite bind_run. unfold set_global. cbv beta iota zeta.
  assert ((if decide (1 < length argv)%nat
           then default "JSON/AdventureWorks2019.json" (argv !! 1%nat)
           else "JSON/AdventureWorks2019.json") = script_path argv) as ->.
  { unfold script_path. case_decide as Hlen; [done|].
    rewrite lookup_ge_None_2; [done|lia]. }
  rewrite bind_run.
  by destruct (fix_config _ _ _ _) as [w1 [e|k]].
Qed.


(** X2, the script on a document of the specified shape: when the file at
    the chosen path may be read and written and holds such a document,
    the script returns whatever the module global held before; the file
    then holds a document in which every column the exclusion map names
    has ["Enabled"] false, and the last line printed is
    [Configuration fixed: <path>]. *)
Theorem main_disables argv w f config :
  fs w !! script_path argv = Some f →
  readable f = true → writable f = true →
  json_load (content f) = Some config →
  conforms config = true →
  ∃ w' config' lines,
    main json_load json_dump argv w = (w', inr tt)
    ∧ written json_dump w' (script_path argv) config'
    ∧ stdout w' =
        (stdout w ++ lines
         ++ ["Configuration fixed: " +:+ script_path argv])%list
    ∧ ∀ i j table column,
        tables config !! i = Some table →
        columns table !! j = Some column →
        excluded PROBLEMATIC_COLUMNS table column = true →
        ∃ table' column',
          tables config' !! i = Some table'
          ∧ columns table' !! j = Some column'
          ∧ field column' "Enabled" = Some (JBool false).
Proof.
  intros Hf Hr Hw Hl Hconf.
  pose proof (conforms_ok PROBLEMATIC_COLUMNS _ Hconf) as Hok.
  eexists _, (disable_config PROBLEMATIC_COLUMNS config),
    (config_notices PROBLEMATIC_COLUMNS config
     ++ ["Fixed " +:+ pretty (Z.of_nat (config_hits PROBLEMATIC_COLUMNS config))
         +:+ " problematic columns"])%list.
  rewrite main_run.
  rewrite (fix_config_ok _ _ _ (World (fs w) (stdout w) PROBLEMATIC_COLUMNS)
             f config); [|done..].
  simpl. split; [reflexivity|]. split; [|split].
  - unfold written. simpl. by rewrite lookup_insert_eq.
  - rewrite <- !app_assoc. reflexivity.
  - intros i j table column Ht Hc Hex.
    destruct (lookup_patched PROBLEMATIC_COLUMNS _ _ _ _ _ Ht Hc) as [Ht' Hc'].
    eexists _, _. split; [exact Ht'|]. split; [exact Hc'|].
    rewrite (excluded_hit _ _ _ PROBLEMATIC_COLUMNS_names_nonempty) in Hex.
    destruct (selected PROBLEMATIC_COLUMNS table) as [[name cols]|]; [|done].
    apply bool_decide_eq_true in Hex.
    destruct (column_hit_cases cols column) as [[_ H]|[H _]]; [done|lia].
Qed.


(** X4, no exception on a document of the specified shape: when the file
    may be read and written and holds such a document, [fix_config]
    returns, whatever the module global holds. *)
Theorem fix_config_returns_on_conforming path w f config :
  fs w !! path = Some f → readable f = true → writable f = true →
  json_load (content f) = Some config →
  conforms config = true →
  ∃ w' n, fix_config json_load json_dump path w = (w', inr n).
Proof.
  intros Hf Hr Hw Hl Hconf. eexists _, _.
  apply (fix_config_ok _ _ _ _ f config); try done.
  by apply conforms_ok.
Qed.

(** X5, a file that may not be written: when the loops return on the
    document of a readable file that may not be written, [fix_config]
    raises [PermissionError] in the world the loops left: the notices are
    printed, the summary line is not, and no file has changed. *)
Theorem fix_config_unwritable path w f config w1 result :
  fs w !! path = Some f → readable f = true → writable f = false →
  json_load (content f) = Some config →
  disable_columns config w = (w1, inr result) →
  fix_config json_load json_dump path w = (w1, inl PermissionError)
  ∧ fs w1 = fs w.
Proof.
  intros Hf Hr Hw Hl Hrun.
  destruct (keeps_disable_columns _ _ _ _ Hrun) as [Hfs _].
  split; [|done]. unfold fix_config.
  rewrite bind_run. unfold open_read. rewrite Hf, Hr.
  rewrite bind_run. unfold loads. rewrite Hl, ret_run.
  rewrite bind_run, Hrun. destruct result as [config' n].
  rewrite bind_run. unfold open_write. by rewrite Hfs, Hf, Hw.
Qed.

(** X6, documents of another shape: on a document that is not an object
    [fix_config] raises [AttributeError], and on one whose ["Tables"] is
    not iterable it raises [TypeError], in both cases before printing or
    writing anything; and when an entry of the ["Tables"] array is not an
    object the run raises and leaves every file as it was. *)
Theorem fix_config_shape_errors path w config :
  loaded json_load w path config →
  (is_dict config = false →
   fix_config json_load json_dump path w = (w, inl AttributeError))
  ∧ (∀ v, field config "Tables" = Some v → elements v = None →
     fix_config json_load json_dump path w = (w, inl TypeError))
  ∧ (∀ items i x,
       field config "Tables" = Some (JArr items) →
       items !! i = Some x → is_dict x = false →
       ∃ w' e, fix_config json_load json_dump path w = (w', inl e)
               ∧ fs w' = fs w).
Proof.
  intros Hloaded. destruct (loaded_file _ _ _ _ Hloaded) as (f & Hf & Hr & Hl).
  assert (Hstart : ∀ e, disable_columns config w = (w, inl e) →
    fix_config json_load json_dump path w = (w, inl e)).
  { intros e He. unfold fix_config.
    rewrite bind_run. unfold open_read. rewrite Hf, Hr.
    rewrite bind_run. unfold loads. rewrite Hl, ret_run.
    by rewrite bind_run, He. }
  split; [|split].
  - intros Hd. apply Hstart. by destruct config.
  - intros v Hv Hnone. apply Hstart.
    destruct config as [| | | | | |d]; try done. simpl in Hv.
    unfold disable_columns. simpl py_get. rewrite bind_run, ret_run, Hv.
    rewrite bind_run. unfold py_iter. simpl. by rewrite Hnone.
  - intros items i x Hitems Hi Hx.
    destruct (fix_config json_load json_dump path w) as [w' [e|n]] eqn:Hrun.
    + exists w', e. split; [done|]. by eapply fix_config_raise_keeps_files.
    + exfalso. destruct (fix_config_returns_world _ _ _ _ _ Hloaded Hrun)
        as (Hok & _ & _).
      destruct config as [| | | | | |d]; try done. simpl in Hitems, Hok.
      rewrite Hitems in Hok. simpl in Hok.
      rewrite forallb_forall in Hok.
      assert (table_ok (globals w) x = true) as Hbad.
      { apply Hok. apply list_elem_of_In.
        by eapply list_elem_of_lookup_2. }
      by destruct x.
Qed.

(** X7, what is printed: a run of [fix_config] that returns has printed,
    after what was printed before, one line
    [Disabled <TableName>.<ColumnName>] for each column the exclusion map
    names, in the order of the document, and then the line
    [Fixed <n> problematic columns] with the count it returns; the number
    of [Disabled] lines is that count. *)
Theorem fix_config_prints path w w' n config :
  globals w = PROBLEMATIC_COLUMNS →
  loaded json_load w path config →
  fix_config json_load json_dump path w = (w', inr n) →
  stdout w' =
    (stdout w ++ disabled_notices PROBLEMATIC_COLUMNS config
     ++ ["Fixed " +:+ pretty n +:+ " problematic columns"])%list
  ∧ Z.of_nat (length (disabled_notices PROBLEMATIC_COLUMNS config)) = n.
Proof.
  intros Hg Hloaded Hrun.
  destruct (fix_config_returns_world _ _ _ _ _ Hloaded Hrun) as (_ & Hn & ->).
  rewrite Hg in *.
  rewrite <- (config_notices_disabled _ _ PROBLEMATIC_COLUMNS_names_nonempty).
  split.
  - cbn [stdout]. by rewrite <- app_assoc.
  - by rewrite length_config_notices.
Qed.

(** X8, tables the map does not name: in a run that returns, a Table entry
    whose ["TableName"] is a string that is no key of the module global is
    written back exactly as it was read, whatever its other fields hold. *)
Theorem fix_config_skips_table path w w' n config :
  loaded json_load w path config →
  fix_config json_load json_dump path w = (w', inr n) →
  ∃ config',
    written json_dump w' path config'
    ∧ ∀ i table name,
        tables config !! i = Some table →
        field table "TableName" = Some (JStr name) →
        globals w !! name = None →
        tables config' !! i = Some table.
Proof.
  intros Hloaded Hrun.
  destruct (fix_config_returns _ _ _ _ _ _ _ Hloaded Hrun)
    as (_ & Hwritten & _ & _ & _).
  exists (disable_config (globals w) config). split; [done|].
  intros i table name Ht Hname Hkey.
  rewrite tables_disable_config, list_lookup_fmap, Ht.
  cbn [fmap option_fmap option_map]. f_equal.
  unfold disable_table. destruct table as [| | | | | |d]; try done.
  cbn [field] in Hname. cbn [selected]. unfold table_name_of.
  rewrite Hname. simpl. by rewrite Hkey.
Qed.

(** X9, the order of the keys: in a run that returns, the document and
    each Table entry are written back with the keys they had, in the
    order they had them; a Column entry too, unless it had no
    ["Enabled"], which then comes last. *)
Theorem fix_config_key_order path w w' n config :
  loaded json_load w path config →
  fix_config json_load json_dump path w = (w', inr n) →
  ∃ config',
    written json_dump w' path config'
    ∧ keys config' = keys config
    ∧ ∀ i table table',
        tables config !! i = Some table →
        tables config' !! i = Some table' →
        keys table' = keys table
        ∧ ∀ j column column',
            columns table !! j = Some column →
            columns table' !! j = Some column' →
            keys column' = keys column
            ∨ (field column "Enabled" = None
               ∧ keys column' = (keys column ++ ["Enabled"])%list).
Proof.
  intros Hloaded Hrun.
  destruct (fix_config_returns _ _ _ _ _ _ _ Hloaded Hrun)
    as (_ & Hwritten & _ & _ & _).
  exists (disable_config (globals w) config). split; [done|].
  split; [apply keys_update|].
  intros i table table' Ht. rewrite tables_disable_config, list_lookup_fmap, Ht.
  intros [= <-]. split; [apply keys_disable_table|].
  intros j column column' Hc. rewrite columns_disable_table.
  destruct (selected (globals w) table) as [[name cols]|].
  - rewrite list_lookup_fmap, Hc. intros [= <-]. apply keys_disable_column.
  - rewrite Hc. intros [= <-]. by left.
Qed.

(** X10, a second run on the file: when the file a first run wrote loads as
    the document that run held in memory, a second run returns the same
    count and leaves every file as the first run left it. *)
Theorem fix_config_second_run path w w1 wm n config config1 :
  loaded json_load w path config →
  fix_config json_load json_dump path w = (w1, inr n) →
  disable_columns config w = (wm, inr (config1, n)) →
  loaded json_load w1 path config1 →
  ∃ w2, fix_config json_load json_dump path w1 = (w2, inr n)
        ∧ fs w2 = fs w1.
Proof.
  intros Hloaded Hrun Hmem Hback.
  apply disable_columns_returns in Hmem as (_ & -> & _ & _).
  exact (fix_config_twice _ _ _ _ _ _ _ Hloaded Hrun Hback).
Qed.


End Runs.

#[local] Transparent PROBLEMATIC_COLUMNS.

(** ** More sample runs, through the theorems *)


Lemma main_disables_witness :
  ∃ w' config' lines,
    main (sample_load_among sample_docs) sample_dump ["fix_config.py"]
      sample_world_fresh = (w', inr tt)
    ∧ written sample_dump w' (script_path ["fix_config.py"]) config'
    ∧ stdout w' =
        (stdout sample_world_fresh ++ lines
         ++ ["Configuration fixed: " +:+ script_path ["fix_config.py"]])%list
    ∧ ∀ i j table column,
        tables sample_config !! i = Some table →
        columns table !! j = Some column →
        excluded PROBLEMATIC_COLUMNS table column = true →
        ∃ table' column',
          tables config' !! i = Some table'
          ∧ columns table' !! j = Some column'
          ∧ field column' "Enabled" = Some (JBool false).
Proof.
  apply (main_disables (sample_load_among sample_docs) sample_dump
           ["fix_config.py"] sample_world_fresh
           (File true true (sample_dump sample_config)) sample_config).
  - vm_compute. reflexivity.
  - reflexivity.
  - reflexivity.
  - vm_compute. reflexivity.
  - vm_compute. reflexivity.
Defined.


Lemma fix_config_returns_on_conforming_witness :
  ∃ w' n,
    fix_config (sample_load_among sample_docs) sample_dump
      "JSON/AdventureWorks2019.json" sample_world_fresh = (w', inr n).
Proof.
  apply (fix_config_returns_on_conforming (sample_load_among sample_docs)
           sample_dump "JSON/AdventureWorks2019.json" sample_world_fresh
           (File true true (sample_dump sample_config)) sample_config).
  - vm_compute. reflexivity.
  - reflexivity.
  - reflexivity.
  - vm_compute. reflexivity.
  - vm_compute. reflexivity.
Defined.

Lemma fix_config_unwritable_witness :
  fix_config (sample_load_among sample_docs) sample_dump "readonly.json"
    sample_world_more =
    (World sample_fs_more
           ["Disabled Sales.SalesOrderDetail.SalesOrderDetailID";
            "Disabled Sales.SalesPerson.SalesLastYear"]
           PROBLEMATIC_COLUMNS,
     inl PermissionError)
  ∧ fs (World sample_fs_more
              ["Disabled Sales.SalesOrderDetail.SalesOrderDetailID";
               "Disabled Sales.SalesPerson.SalesLastYear"]
              PROBLEMATIC_COLUMNS) = fs sample_world_more.
Proof.
  apply (fix_config_unwritable (sample_load_among sample_docs) sample_dump
           "readonly.json" sample_world_more
           (File true false (sample_dump sample_config)) sample_config
           _ (sample_patched, 2)).
  - vm_compute. reflexivity.
  - reflexivity.
  - reflexivity.
  - vm_compute. reflexivity.
  - vm_compute. reflexivity.
Defined.

Lemma fix_config_shape_errors_witness :
  fix_config (sample_load_among sample_docs) sample_dump "list.json"
    sample_world_more = (sample_world_more, inl AttributeError)
  ∧ fix_config (sample_load_among sample_docs) sample_dump "null.json"
      sample_world_more = (sample_world_more, inl TypeError)
  ∧ ∃ w' e,
      fix_config (sample_load_among sample_docs) sample_dump "mixed.json"
        sample_world_more = (w', inl e)
      ∧ fs w' = fs sample_world_more.
Proof.
  split; [|split].
  - apply (proj1 (fix_config_shape_errors (sample_load_among sample_docs)
                    sample_dump "list.json" sample_world_more (JArr [])
                    ltac:(vm_compute; reflexivity))).
    reflexivity.
  - apply (proj1 (proj2 (fix_config_shape_errors
                           (sample_load_among sample_docs) sample_dump
                           "null.json" sample_world_more sample_null_tables
                           ltac:(vm_compute; reflexivity))) JNull).
    + reflexivity.
    + reflexivity.
  - apply (proj2 (proj2 (fix_config_shape_errors
                           (sample_load_among sample_docs) sample_dump
                           "mixed.json" sample_world_more sample_mixed
                           ltac:(vm_compute; reflexivity)))
             (tables sample_mixed) 1%nat (JStr "Sales.SalesTerritory")).
    + reflexivity.
    + reflexivity.
    + reflexivity.
Defined.

Lemma fix_config_prints_witness :
  stdout (fix_config (sample_load_among sample_docs) sample_dump "odd.json"
            sample_world_more).1 =
    (stdout sample_world_more
     ++ disabled_notices PROBLEMATIC_COLUMNS sample_odd
     ++ ["Fixed " +:+ pretty 1 +:+ " problematic columns"])%list
  ∧ Z.of_nat (length (disabled_notices PROBLEMATIC_COLUMNS sample_odd)) = 1.
Proof.
  apply (fix_config_prints (sample_load_among sample_docs) sample_dump
           "odd.json" sample_world_more _ 1 sample_odd).
  - reflexivity.
  - vm_compute. reflexivity.
  - vm_compute. reflexivity.
Defined.

Lemma fix_config_skips_table_witness :
  ∃ config',
    written sample_dump
      (fix_config (sample_load_among sample_docs) sample_dump "odd.json"
         sample_world_more).1 "odd.json" config'
    ∧ ∀ i table name,
        tables sample_odd !! i = Some table →
        field table "TableName" = Some (JStr name) →
        globals sample_world_more !! name = None →
        tables config' !! i = Some table.
Proof.
  apply (fix_config_skips_table (sample_load_among sample_docs) sample_dump
           "odd.json" sample_world_more _ 1 sample_odd).
  - vm_compute. reflexivity.
  - vm_compute. reflexivity.
Defined.

Lemma fix_config_key_order_witness :
  ∃ config',
    written sample_dump
      (fix_config (sample_load_among sample_docs) sample_dump "odd.json"
         sample_world_more).1 "odd.json" config'
    ∧ keys config' = keys sample_odd
    ∧ ∀ i table table',
        tables sample_odd !! i = Some table →
        tables config' !! i = Some table' →
        keys table' = keys table
        ∧ ∀ j column column',
            columns table !! j = Some column →
            columns table' !! j = Some column' →
            keys column' = keys column
            ∨ (field column "Enabled" = None
               ∧ keys column' = (keys column ++ ["Enabled"])%list).
Proof.
  apply (fix_config_key_order (sample_load_among sample_docs) sample_dump
           "odd.json" sample_world_more _ 1 sample_odd).
  - vm_compute. reflexivity.
  - vm_compute. reflexivity.
Defined.

Lemma fix_config_second_run_witness :
  ∃ w2,
    fix_config (sample_load_among sample_docs) sample_dump
      "JSON/AdventureWorks2019.json"
      (fix_config (sample_load_among sample_docs) sample_dump
         "JSON/AdventureWorks2019.json" sample_world_more).1 = (w2, inr 2)
    ∧ fs w2 =
        fs (fix_config (sample_load_among sample_docs) sample_dump
              "JSON/AdventureWorks2019.json" sample_world_more).1.
Proof.
  apply (fix_config_second_run (sample_load_among sample_docs) sample_dump
           "JSON/AdventureWorks2019.json" sample_world_more _
           (disable_columns sample_config sample_world_more).1 2
           sample_config sample_patched).
  - vm_compute. reflexivity.
  - vm_compute. reflexivity.
  - vm_compute. reflexivity.
  - vm_compute. reflexivity.
Defined.

